(** * urlverify: extraction and classification of URLs and domains

    A shallow embedding of [urlverify.go].  Go strings are byte strings and
    are modelled by [string] (one [ascii] per byte); text outside ASCII is
    its UTF-8 encoding.  The libraries the package calls (net/url, net,
    publicsuffix) are an interface, [GoLibs]; the regular expression
    [urlRegex] is embedded as a syntax tree and run by a backtracking
    matcher with Go's leftmost-first preference. *)

From Stdlib Require Import Bool Arith Lia List Ascii String NArith ZArith.
Import ListNotations.
Local Open Scope string_scope.

Set Implicit Arguments.

(** ** Calls that may panic *)

Inductive go (A : Type) : Type :=
| Ret (a : A)
| Panic.
Arguments Ret {A} a.
Arguments Panic {A}.

Definition bind {A B : Type} (c : go A) (k : A -> go B) : go B :=
  match c with
  | Ret a => k a
  | Panic => Panic
  end.

Notation "x <- c ;; k" := (bind c (fun x => k))
  (at level 61, c at next level, right associativity).

(** [l[i]] on a slice: out of range panics. *)
Definition index_slice {A : Type} (l : list A) (i : Z) : go A :=
  if (i <? 0)%Z then Panic
  else match nth_error l (Z.to_nat i) with
       | Some x => Ret x
       | None => Panic
       end.

(** ** Package strings, for the one-byte separators and cutsets used here *)

Fixpoint mem_ascii (c : ascii) (cutset : string) : bool :=
  match cutset with
  | EmptyString => false
  | String d rest => Ascii.eqb c d || mem_ascii c rest
  end.

(** [strings.Contains(s, sep)] for a one-byte [sep]. *)
Definition Contains (s : string) (sep : ascii) : bool :=
  mem_ascii sep s.

(** [strings.HasPrefix(s, prefix)] *)
Fixpoint HasPrefix (s prefix : string) {struct prefix} : bool :=
  match prefix with
  | EmptyString => true
  | String p prefix' =>
      match s with
      | String c rest => Ascii.eqb c p && HasPrefix rest prefix'
      | EmptyString => false
      end
  end.

(** [strings.Split(s, sep)] for a one-byte [sep]: the fields between the
    separators, always at least one. *)
Fixpoint Split (s : string) (sep : ascii) : list string :=
  match s with
  | EmptyString => [EmptyString]
  | String c rest =>
      if Ascii.eqb c sep then EmptyString :: Split rest sep
      else match Split rest sep with
           | [] => [String c EmptyString]
           | field :: fields => String c field :: fields
           end
  end.

(** [strings.TrimRight(s, cutset)]: [s] without its longest tail made of
    bytes of [cutset]. *)
Fixpoint TrimRight (s : string) (cutset : string) : string :=
  match s with
  | EmptyString => EmptyString
  | String c rest =>
      match TrimRight rest cutset with
      | EmptyString => if mem_ascii c cutset then EmptyString
                       else String c EmptyString
      | kept => String c kept
      end
  end.

(** ** Regular expressions, as package regexp runs them

    Package regexp reads runes.  Every class of the pattern below is a set
    of ASCII bytes or the complement of one, and a byte of a longer UTF-8
    sequence is no ASCII byte, so matching byte by byte finds the same
    matches. *)

Module Regexp.

(** A character class is a list of inclusive byte ranges, possibly
    negated. *)
Inductive regex : Type :=
| Eps
| Cls (negated : bool) (ranges : list (ascii * ascii))
| Cat (r1 r2 : regex)
| Alt (r1 r2 : regex)
| Star (r : regex).

Definition Chr (c : ascii) : regex := Cls false [(c, c)].
Definition Plus (r : regex) : regex := Cat r (Star r).
Definition Opt (r : regex) : regex := Alt r Eps.

Fixpoint Lit (s : string) : regex :=
  match s with
  | EmptyString => Eps
  | String c rest => Cat (Chr c) (Lit rest)
  end.

Definition in_range (c : ascii) (r : ascii * ascii) : bool :=
  (N_of_ascii (fst r) <=? N_of_ascii c)%N && (N_of_ascii c <=? N_of_ascii (snd r))%N.

Definition in_class (negated : bool) (ranges : list (ascii * ascii)) (c : ascii) : bool :=
  xorb negated (existsb (in_range c) ranges).

(** The ways a pattern can match a prefix of the input, as pairs
    (matched, remainder), in the order a backtracking search finds them:
    the left alternative before the right one, one more iteration of a
    star before stopping. *)
Definition ways := list (string * string).

Definition then_ways (first : ways) (next : string -> ways) : ways :=
  flat_map (fun '(m1, s1) => map (fun '(m2, s2) => (m1 ++ m2, s2)) (next s1)) first.

(** An iteration of a star has to consume input; [fuel] bounds the
    number of iterations and the length of the input is enough. *)
Fixpoint star_ways (body : string -> ways) (fuel : nat) (s : string) : ways :=
  match fuel with
  | O => [(EmptyString, s)]
  | S fuel' =>
      (then_ways
         (filter (fun '(_, s1) => Nat.ltb (String.length s1) (String.length s)) (body s))
         (star_ways body fuel')
       ++ [(EmptyString, s)])%list
  end.

Fixpoint run (r : regex) (s : string) : ways :=
  match r with
  | Eps => [(EmptyString, s)]
  | Cls negated ranges =>
      match s with
      | String c rest =>
          if in_class negated ranges c then [(String c EmptyString, rest)] else []
      | EmptyString => []
      end
  | Cat r1 r2 => then_ways (run r1 s) (run r2)
  | Alt r1 r2 => (run r1 s ++ run r2 s)%list
  | Star r1 => star_ways (run r1) (String.length s) s
  end.

(** The match that starts at the first byte of [s], if any. *)
Definition match_here (r : regex) (s : string) : option string :=
  match run r s with
  | (m, _) :: _ => Some m
  | [] => None
  end.

(** The successive non-overlapping matches, leftmost first.  [skip] is
    the number of bytes of the last match still to step over, and [abut]
    says that the last match ended at this position, where an empty match
    is not accepted. *)
Fixpoint allMatches (r : regex) (skip : nat) (abut : bool) (s : string) : list string :=
  match skip, s with
  | S k, String _ rest => allMatches r k true rest
  | S _, EmptyString => []
  | O, _ =>
      match match_here r s with
      | Some (String c m) =>
          String c m ::
          match s with
          | String _ rest => allMatches r (String.length m) true rest
          | EmptyString => []
          end
      | Some EmptyString =>
          ((if abut then [] else [EmptyString]) ++
           match s with
           | String _ rest => allMatches r 0 false rest
           | EmptyString => []
           end)%list
      | None =>
          match s with
          | String _ rest => allMatches r 0 false rest
          | EmptyString => []
          end
      end
  end.

(** [re.FindAllString(s, n)]; a negative [n] asks for all matches. *)
Definition FindAllString (r : regex) (s : string) (n : Z) : list string :=
  let all := allMatches r 0 false s in
  if (n <? 0)%Z then all else firstn (Z.to_nat n) all.

End Regexp.
Import Regexp.

(** ** The pattern of candidates *)

Definition white_space : list (ascii * ascii) :=
  [("009", "010"); ("012", "013"); (" ", " ")]%char.

Definition non_space : regex := Cls true white_space.
Definition digit : regex := Cls false [("0", "9")]%char.
Definition hex_colon : regex :=
  Cls false [("0", "9"); ("a", "f"); ("A", "F"); (":", ":")]%char.
Definition label_head : regex :=
  Cls false [("a", "z"); ("A", "Z"); ("0", "9")]%char.
Definition label_tail : regex :=
  Cls false [("-", "-"); ("a", "z"); ("A", "Z"); ("0", "9")]%char.

(** [https?://[^\s]+] *)
Definition scheme_url : regex :=
  Cat (Lit "http") (Cat (Opt (Chr "s")) (Cat (Lit "://") (Plus non_space))).

(** [\[[0-9a-fA-F:]+\]] *)
Definition bracket_host : regex :=
  Cat (Chr "[") (Cat (Plus hex_colon) (Chr "]")).

(** [\d{1,3}], which package regexp runs as a digit followed by up to two
    optional ones, more digits first. *)
Definition octet : regex :=
  Cat digit (Opt (Cat digit (Opt digit))).

(** [\d{1,3}(?:\.\d{1,3}){3}] *)
Definition quad_host : regex :=
  let dot_octet := Cat (Chr ".") octet in
  Cat octet (Cat dot_octet (Cat dot_octet dot_octet)).

(** A label, [[a-zA-Z0-9]] then any number of [[-a-zA-Z0-9]]. *)
Definition label : regex := Cat label_head (Star label_tail).

(** A label, then one or more times a dot and a label. *)
Definition name_host : regex :=
  Cat label (Plus (Cat (Chr ".") label)).

(** The optional port [(?::\d+)?] and the optional path, a slash and any
    number of [[^\s]]. *)
Definition port_part : regex := Opt (Cat (Chr ":") (Plus digit)).
Definition path_part : regex := Opt (Cat (Chr "/") (Star non_space)).

Definition bare_host : regex :=
  Cat (Alt bracket_host (Alt quad_host name_host)) (Cat port_part path_part).

(** The scheme alternative comes first; the other one is a host of one of
    three forms with its optional port and path. *)
Definition urlRegex : regex := Alt scheme_url bare_host.

(** ** The libraries behind the classifier *)

(** What the package uses of net/url, net and publicsuffix.  An error of
    [url.Parse] is kept as its message, [err.Error()]. *)
Class GoLibs : Type := {
  url_URL : Type;
  url_Scheme : url_URL -> string;
  url_Host : url_URL -> string;
  url_Hostname : url_URL -> string;
  url_Parse : string -> url_URL + string;
  (** [ResolveReference] on a reference that has a scheme, which ignores
      its receiver, and on one that has none *)
  url_resolveAbsolute : url_URL -> url_URL;
  url_resolveRelative : url_URL -> url_URL -> url_URL;
  net_IP : Type;
  net_ParseIP : string -> option net_IP;
  net_IP_String : net_IP -> string;
  PublicSuffix : string -> string * bool
}.

Inductive URLType : Type :=
| URLTypeInvalid
| URLTypeIP
| URLTypeICANN
| URLTypeNonICANN.

Definition URLType_String (t : URLType) : string :=
  match t with
  | URLTypeInvalid => "Invalid"
  | URLTypeIP => "IP Address"
  | URLTypeICANN => "ICANN Domain"
  | URLTypeNonICANN => "Non-ICANN Domain"
  end.

(** [URLType] is an int: the values the constants get from [iota], and
    [String] on any value of the type. *)
Definition URLType_value (t : URLType) : Z :=
  match t with
  | URLTypeInvalid => 0
  | URLTypeIP => 1
  | URLTypeICANN => 2
  | URLTypeNonICANN => 3
  end.

Definition String_of_value (t : Z) : string :=
  if (t =? 0)%Z then "Invalid"
  else if (t =? 1)%Z then "IP Address"
  else if (t =? 2)%Z then "ICANN Domain"
  else if (t =? 3)%Z then "Non-ICANN Domain"
  else "Unknown".

(** The result of validation; a nil [URL] is [None], a string left out of
    the literal is empty. *)
Record ValidationResult {L : GoLibs} : Type := {
  Valid : bool;
  Reason : string;
  Type_ : URLType;
  TLD : string;
  URL : option url_URL
}.

Section Classifier.

Context {L : GoLibs}.

(** The method [ResolveReference] of a [*URL]: the receiver is read only
    when the reference has no scheme, and a nil receiver panics there. *)
Definition URL_ResolveReference (u : option url_URL) (ref : url_URL) : go url_URL :=
  if String.eqb (url_Scheme ref) "" then
    match u with
    | Some base => Ret (url_resolveRelative base ref)
    | None => Panic
    end
  else Ret (url_resolveAbsolute ref).

(** The method [Parse] of a [*URL]: parse the reference, then resolve it
    against the receiver. *)
Definition URL_Parse (u : option url_URL) (ref : string) : go (url_URL + string) :=
  match url_Parse ref with
  | inr err => Ret (inr err)
  | inl refURL => r <- URL_ResolveReference u refURL ;; Ret (inl r)
  end.

(** The first lines of [ValidateDomain]: the final [url, err].  After
    [url, err := url.Parse(raw)] the name [url] is the local variable, so the
    second call is the method of the first result, which is nil when the
    first parse failed. *)
Definition parseCandidate (raw : string) : go (url_URL + string) :=
  match url_Parse raw with
  | inl url =>
      if String.eqb (url_Host url) "" then URL_Parse (Some url) ("http://" ++ raw)
      else Ret (inl url)
  | inr _ => URL_Parse None ("http://" ++ raw)
  end.

Definition validateDomainName (url : url_URL) : go ValidationResult :=
  let hostname := url_Hostname url in
  if String.eqb hostname "" then
    Ret {| Valid := false; Reason := "empty hostname"; Type_ := URLTypeInvalid;
           TLD := ""; URL := None |}
  else if negb (Contains hostname ".") then
    Ret {| Valid := false; Reason := "no valid TLD found"; Type_ := URLTypeInvalid;
           TLD := ""; URL := None |}
  else
    let (eTLD, icann) := PublicSuffix hostname in
    if String.eqb eTLD "" then
      Ret {| Valid := false; Reason := "no valid TLD found"; Type_ := URLTypeInvalid;
             TLD := ""; URL := None |}
    else if icann then
      Ret {| Valid := true; Reason := "valid ICANN domain"; Type_ := URLTypeICANN;
             TLD := eTLD; URL := Some url |}
    else
      let rejected :=
        {| Valid := false; Reason := "invalid or non-ICANN TLD"; Type_ := URLTypeInvalid;
           TLD := eTLD; URL := None |} in
      if Contains eTLD "." then
        let parts := Split eTLD "." in
        actualTLD <- index_slice parts (Z.of_nat (List.length parts) - 1) ;;
        let testDomain := "test." ++ actualTLD in
        if snd (PublicSuffix testDomain) then
          Ret {| Valid := true; Reason := "valid domain built on ICANN TLD";
                 Type_ := URLTypeNonICANN; TLD := eTLD; URL := Some url |}
        else Ret rejected
      else Ret rejected.

Definition ValidateDomain (raw : string) : go ValidationResult :=
  parsed <- parseCandidate raw ;;
  match parsed with
  | inr err =>
      Ret {| Valid := false; Reason := "parse error: " ++ err; Type_ := URLTypeInvalid;
             TLD := ""; URL := None |}
  | inl url =>
      match net_ParseIP (url_Hostname url) with
      | Some ip =>
          Ret {| Valid := true; Reason := "valid IP address"; Type_ := URLTypeIP;
                 TLD := net_IP_String ip; URL := Some url |}
      | None => validateDomainName url
      end
  end.

(** The loop of [ExtractAll] over the matches. *)
Fixpoint extractLoop (matches : list string) (validURLs : list string) : go (list string) :=
  match matches with
  | [] => Ret validURLs
  | raw :: rest =>
      let raw := TrimRight raw ".,)" in
      result <- ValidateDomain raw ;;
      if Valid result then extractLoop rest (validURLs ++ [raw])%list
      else extractLoop rest validURLs
  end.

Definition ExtractAll (text : string) : go (list string) :=
  extractLoop (FindAllString urlRegex text (-1)) [].

End Classifier.

(** ** A small instance of the libraries

    An executable stand-in for net/url, net and publicsuffix, on which the
    classifier can be run: URLs without query, fragment, user information,
    escapes or control bytes, IPv4 addresses only, and a short suffix
    table. *)

Module Sample.

Record URL : Type := {
  Scheme : string;
  Opaque : string;
  Host : string;
  Path : string
}.

Definition between (lo hi c : ascii) : bool := in_range c (lo, hi).
Definition is_letter (c : ascii) : bool := between "a" "z" c || between "A" "Z" c.
Definition is_digit (c : ascii) : bool := between "0" "9" c.

Definition lower (c : ascii) : ascii :=
  if between "A" "Z" c then ascii_of_N (N_of_ascii c + 32) else c.

Fixpoint ToLower (s : string) : string :=
  match s with
  | EmptyString => EmptyString
  | String c rest => String (lower c) (ToLower rest)
  end.

Fixpoint all_digits (s : string) : bool :=
  match s with
  | EmptyString => true
  | String c rest => is_digit c && all_digits rest
  end.

(** [s[:i]] and [s[i+1:]] for the first, and for the last, [i] with
    [s[i] = c]. *)
Fixpoint cut_first (s : string) (c : ascii) : option (string * string) :=
  match s with
  | EmptyString => None
  | String d rest =>
      if Ascii.eqb d c then Some (EmptyString, rest)
      else match cut_first rest c with
           | Some (a, b) => Some (String d a, b)
           | None => None
           end
  end.

Fixpoint cut_last (s : string) (c : ascii) : option (string * string) :=
  match s with
  | EmptyString => None
  | String d rest =>
      match cut_last rest c with
      | Some (a, b) => Some (String d a, b)
      | None => if Ascii.eqb d c then Some (EmptyString, rest) else None
      end
  end.

Inductive scheme_scan : Type :=
| MissingScheme
| NoScheme
| SchemeRest (scheme rest : string).

(** [getScheme]: letters, then digits and [+-.] after the first byte, up
    to a colon. *)
Fixpoint getScheme (first : bool) (s : string) : scheme_scan :=
  match s with
  | EmptyString => NoScheme
  | String c rest =>
      if is_letter c || (negb first && (is_digit c || mem_ascii c "+-.")) then
        match getScheme false rest with
        | SchemeRest scheme rest' => SchemeRest (String c scheme) rest'
        | other => other
        end
      else if Ascii.eqb c ":" then
        if first then MissingScheme else SchemeRest EmptyString rest
      else NoScheme
  end.

(** [rest[2:]] *)
Definition skip_slashes (rest : string) : string :=
  match rest with
  | String _ (String _ after) => after
  | _ => EmptyString
  end.

Definition quoted (s : string) : string :=
  let q := String (ascii_of_nat 34) EmptyString in q ++ s ++ q.

Definition parse_error (rawURL msg : string) : string :=
  "parse " ++ quoted rawURL ++ ": " ++ msg.

(** [validOptionalPort] of the text after the last colon *)
Definition parseHost (host : string) : string + string :=
  let after_bracket :=
    if HasPrefix host "[" then
      match cut_last host "]" with
      | Some (_, colonPort) =>
          match colonPort with
          | EmptyString => inl host
          | String c port =>
              if Ascii.eqb c ":" && all_digits port then inl host
              else inr ("invalid port " ++ quoted colonPort ++ " after host")
          end
      | None => inr "missing ']' in host"
      end
    else
      match cut_last host ":" with
      | Some (_, port) =>
          if all_digits port then inl host
          else inr ("invalid port " ++ quoted (":" ++ port) ++ " after host")
      | None => inl host
      end in
  after_bracket.

Definition Parse (rawURL : string) : URL + string :=
  match getScheme true rawURL with
  | MissingScheme => inr (parse_error rawURL "missing protocol scheme")
  | scanned =>
      let (scheme, rest) :=
        match scanned with
        | SchemeRest scheme rest => (ToLower scheme, rest)
        | _ => (EmptyString, rawURL)
        end in
      if negb (HasPrefix rest "/") && negb (String.eqb scheme "") then
        inl {| Scheme := scheme; Opaque := rest; Host := ""; Path := "" |}
      else if negb (HasPrefix rest "/")
              && Contains (match cut_first rest "/" with
                           | Some (segment, _) => segment
                           | None => rest
                           end) ":" then
        inr (parse_error rawURL "first path segment in URL cannot contain colon")
      else if (negb (String.eqb scheme "") || negb (HasPrefix rest "///"))
              && HasPrefix rest "//" then
        let after := skip_slashes rest in
        let (authority, path) :=
          match cut_first after "/" with
          | Some (authority, path) => (authority, "/" ++ path)
          | None => (after, EmptyString)
          end in
        match parseHost authority with
        | inl host => inl {| Scheme := scheme; Opaque := ""; Host := host; Path := path |}
        | inr msg => inr (parse_error rawURL msg)
        end
      else inl {| Scheme := scheme; Opaque := ""; Host := ""; Path := rest |}
  end.

(** [Hostname]: the host without a valid port and without brackets *)
Definition Hostname (u : URL) : string :=
  let host :=
    match cut_last (Host u) ":" with
    | Some (before, port) => if all_digits port then before else Host u
    | None => Host u
    end in
  match host with
  | String "[" inner =>
      match cut_last inner "]" with
      | Some (literal, EmptyString) => literal
      | _ => host
      end
  | _ => host
  end.

Definition resolveAbsolute (ref : URL) : URL := ref.

Definition resolveRelative (base ref : URL) : URL :=
  {| Scheme := Scheme base; Opaque := Opaque ref; Host := Host base; Path := Path ref |}.

(** Four decimal fields of at most 255 without leading zeros; the address
    is kept in its textual form. *)
Definition field_value (s : string) : option N :=
  match s with
  | EmptyString => None
  | String "0" (String _ _) => None
  | _ =>
      if all_digits s && (String.length s <=? 3)%nat then
        Some ((fix value (acc : N) (t : string) : N :=
                 match t with
                 | EmptyString => acc
                 | String c rest => value (acc * 10 + (N_of_ascii c - 48))%N rest
                 end) 0%N s)
      else None
  end.

Definition is_octet (s : string) : bool :=
  match field_value s with
  | Some v => (v <=? 255)%N
  | None => false
  end.

Definition ParseIP (s : string) : option string :=
  let fields := Split s "." in
  if (List.length fields =? 4)%nat && forallb is_octet fields then Some s else None.

(** The rules of the suffix table, with their ICANN flag. *)
Definition rules : list (string * bool) :=
  [("com", true); ("org", true); ("net", true); ("uk", true);
   ("co.uk", true); ("dyndns.org", false); ("blogspot.com", false)].

Fixpoint find_rule (suffix : string) (table : list (string * bool)) : option bool :=
  match table with
  | [] => None
  | (rule, icann) :: rest =>
      if String.eqb rule suffix then Some icann else find_rule suffix rest
  end.

(** The suffixes of a domain at its dots, longest first. *)
Fixpoint dot_suffixes (fuel : nat) (domain : string) : list string :=
  domain ::
  match fuel with
  | O => []
  | S fuel' =>
      match cut_first domain "." with
      | Some (_, rest) => dot_suffixes fuel' rest
      | None => []
      end
  end.

(** The longest rule that matches, or else the last label, which is not
    an ICANN suffix. *)
Definition lookup (domain : string) : string * bool :=
  let candidates := dot_suffixes (String.length domain) domain in
  match
    find (fun suffix => match find_rule suffix rules with Some _ => true | None => false end)
         candidates
  with
  | Some suffix =>
      (suffix, match find_rule suffix rules with Some icann => icann | None => false end)
  | None => (List.last candidates domain, false)
  end.

(** The URL with scheme http that the second parse yields for a host. *)
Definition http_url (host path : string) : URL :=
  {| Scheme := "http"; Opaque := ""; Host := host; Path := path |}.

#[export] Instance libs : GoLibs := {|
  url_URL := URL;
  url_Scheme := Scheme;
  url_Host := Host;
  url_Hostname := Hostname;
  url_Parse := Parse;
  url_resolveAbsolute := resolveAbsolute;
  url_resolveRelative := resolveRelative;
  net_IP := string;
  net_ParseIP := ParseIP;
  net_IP_String := fun ip => ip;
  PublicSuffix := lookup
|}.

End Sample.


(** * Vocabulary of the properties *)

(** ** The language of a pattern *)

Inductive Matches : regex -> string -> Prop :=
| MatchEps : Matches Eps ""
| MatchCls negated ranges c :
    in_class negated ranges c = true ->
    Matches (Cls negated ranges) (String c "")
| MatchCat r1 r2 m1 m2 :
    Matches r1 m1 -> Matches r2 m2 -> Matches (Cat r1 r2) (m1 ++ m2)
| MatchAltLeft r1 r2 m : Matches r1 m -> Matches (Alt r1 r2) m
| MatchAltRight r1 r2 m : Matches r2 m -> Matches (Alt r1 r2) m
| MatchStarStop r : Matches (Star r) ""
| MatchStarMore r m1 m2 :
    Matches r m1 -> Matches (Star r) m2 -> Matches (Star r) (m1 ++ m2).

#[local] Hint Constructors Matches : core.

(** What a way of matching [s] must satisfy. *)
Definition sound_way (lang : string -> Prop) (s : string) (w : string * string) : Prop :=
  s = fst w ++ snd w /\ lang (fst w).

(** ** Occurrences in a text *)

(** The strings of the list occur in the text one after the other, without
    overlap. *)
Inductive occurs_in_order : list string -> string -> Prop :=
| occurs_none text : occurs_in_order [] text
| occurs_next before s after rest :
    occurs_in_order rest after ->
    occurs_in_order (s :: rest) (before ++ s ++ after).

Definition substring_of (s text : string) : Prop :=
  exists before after, text = before ++ s ++ after.

Fixpoint skip_bytes (k : nat) (s : string) : string :=
  match k, s with
  | S k', String _ rest => skip_bytes k' rest
  | _, _ => s
  end.

(** The last byte of a string, if any. *)
Fixpoint last_byte (s : string) : option ascii :=
  match s with
  | EmptyString => None
  | String c EmptyString => Some c
  | String _ rest => last_byte rest
  end.

Fixpoint all_bytes (p : ascii -> bool) (s : string) : bool :=
  match s with
  | EmptyString => true
  | String c rest => p c && all_bytes p rest
  end.

(** ** The shapes of a candidate *)

Definition ascii_letter (c : ascii) : bool :=
  in_range c ("a", "z")%char || in_range c ("A", "Z")%char.
Definition ascii_digit (c : ascii) : bool := in_range c ("0", "9")%char.
Definition ascii_alnum (c : ascii) : bool := ascii_letter c || ascii_digit c.
Definition ascii_alnum_hyphen (c : ascii) : bool := ascii_alnum c || Ascii.eqb c "-".
Definition ascii_hex_colon (c : ascii) : bool :=
  ascii_digit c || in_range c ("a", "f")%char || in_range c ("A", "F")%char
  || Ascii.eqb c ":".
Definition ascii_space (c : ascii) : bool :=
  mem_ascii c (String "009" (String "010" (String "012" (String "013" " ")))).

(** A label as the pattern has it: not empty, a letter or digit of ASCII
    first, then letters, digits and hyphens of ASCII. *)
Definition is_label (l : string) : bool :=
  match l with
  | String c rest => ascii_alnum c && all_bytes ascii_alnum_hyphen rest
  | EmptyString => false
  end.

(** Each label with a dot before it. *)
Fixpoint dot_each (labels : list string) : string :=
  match labels with
  | [] => EmptyString
  | l :: rest => "." ++ l ++ dot_each rest
  end.

Definition dotted_labels (host : string) : Prop :=
  exists labels,
    2 <= List.length labels /\ forallb is_label labels = true /\
    host = String.concat "." labels.

Definition bracketed (host : string) : Prop :=
  exists inner,
    inner <> "" /\ all_bytes ascii_hex_colon inner = true /\ host = "[" ++ inner ++ "]".

Definition port_shape (port : string) : Prop :=
  port = "" \/
  exists digits, digits <> "" /\ all_bytes ascii_digit digits = true /\ port = ":" ++ digits.

Definition path_shape (path : string) : Prop :=
  path = "" \/
  exists rest, all_bytes (fun c => negb (ascii_space c)) rest = true /\ path = "/" ++ rest.

Definition scheme_prefixed (m : string) : Prop :=
  exists rest, m = "http://" ++ rest \/ m = "https://" ++ rest.

Definition bare_host_shape (m : string) : Prop :=
  exists host port path,
    m = host ++ port ++ path /\
    (bracketed host \/ dotted_labels host) /\ port_shape port /\ path_shape path.

(** The stricter shape: a label also ends with a letter or digit, and a
    byte outside ASCII, of a letter of Unicode in UTF-8, counts as a
    letter. *)
Definition wide_alnum (c : ascii) : bool :=
  ascii_alnum c || (128 <=? N_of_ascii c)%N.

Definition ends_alnum (l : string) : bool :=
  match last_byte l with
  | Some c => wide_alnum c
  | None => false
  end.

Definition strict_label (l : string) : bool :=
  match l with
  | String c rest =>
      wide_alnum c && all_bytes (fun x => wide_alnum x || Ascii.eqb x "-") rest
      && ends_alnum l
  | EmptyString => false
  end.

Definition strict_bare_host (m : string) : Prop :=
  exists labels tail,
    2 <= List.length labels /\ forallb strict_label labels = true /\
    m = String.concat "." labels ++ tail.

(** A host of two labels in Cyrillic, in UTF-8. *)
Definition cyrillic_host : string :=
  String "209" (String "143" (String "." (String "209" (String "128"
    (String "209" (String "132" EmptyString)))))).

(** The bytes of white space, and the patterns none of whose classes
    accepts one. *)
Definition white_bytes : list ascii := ["009"; "010"; "012"; "013"; " "]%char.

Fixpoint space_free (r : regex) : bool :=
  match r with
  | Eps => true
  | Cls negated ranges => forallb (fun c => negb (in_class negated ranges c)) white_bytes
  | Cat r1 r2 => space_free r1 && space_free r2
  | Alt r1 r2 => space_free r1 && space_free r2
  | Star r1 => space_free r1
  end.

Definition no_space (s : string) : bool :=
  all_bytes (fun c => negb (ascii_space c)) s.



(** ** The outcomes of the classifier *)

(** The candidates of a text as they are classified and returned. *)
Definition candidates (text : string) : list string :=
  map (fun raw => TrimRight raw ".,)") (FindAllString urlRegex text (-1)).

(** The rightmost label of a suffix, [parts[len(parts)-1]]. *)
Definition rightmost_label (suffix : string) : string :=
  List.last (Split suffix ".") "".

Section Outcomes.

Context {L : GoLibs}.

(** A parse of a text that starts with a scheme yields a URL with a
    scheme.  This is what keeps the second parse of [ValidateDomain], a
    method call on a possibly nil URL, from reading its receiver. *)
Definition keeps_http_scheme : Prop :=
  forall raw url, url_Parse ("http://" ++ raw) = inl url -> url_Scheme url <> "".

(** Whether the first parse fails or yields an empty host, the parse with
    the default scheme, and the parse [ValidateDomain] goes on with. *)
Definition needs_scheme (raw : string) : bool :=
  match url_Parse raw with
  | inl url => String.eqb (url_Host url) ""
  | inr _ => true
  end.

Definition reparsed (raw : string) : url_URL + string :=
  match url_Parse ("http://" ++ raw) with
  | inl refURL => inl (url_resolveAbsolute refURL)
  | inr err => inr err
  end.

Definition parse_outcome (raw : string) : url_URL + string :=
  if needs_scheme raw then reparsed raw
  else match url_Parse raw with
       | inl url => inl url
       | inr err => inr err
       end.

Definition rejected (reason tld : string) : ValidationResult :=
  {| Valid := false; Reason := reason; Type_ := URLTypeInvalid; TLD := tld; URL := None |}.

Definition accepted (reason : string) (type : URLType) (tld : string) (url : url_URL)
  : ValidationResult :=
  {| Valid := true; Reason := reason; Type_ := type; TLD := tld; URL := Some url |}.

Inductive name_verdict (url : url_URL) : ValidationResult -> Prop :=
| verdict_empty :
    url_Hostname url = "" ->
    name_verdict url (rejected "empty hostname" "")
| verdict_no_dot :
    url_Hostname url <> "" -> Contains (url_Hostname url) "." = false ->
    name_verdict url (rejected "no valid TLD found" "")
| verdict_no_suffix icann :
    Contains (url_Hostname url) "." = true ->
    PublicSuffix (url_Hostname url) = ("", icann) ->
    name_verdict url (rejected "no valid TLD found" "")
| verdict_icann eTLD :
    Contains (url_Hostname url) "." = true ->
    PublicSuffix (url_Hostname url) = (eTLD, true) -> eTLD <> "" ->
    name_verdict url (accepted "valid ICANN domain" URLTypeICANN eTLD url)
| verdict_on_icann eTLD :
    Contains (url_Hostname url) "." = true ->
    PublicSuffix (url_Hostname url) = (eTLD, false) -> eTLD <> "" ->
    Contains eTLD "." = true ->
    snd (PublicSuffix ("test." ++ rightmost_label eTLD)) = true ->
    name_verdict url (accepted "valid domain built on ICANN TLD" URLTypeNonICANN eTLD url)
| verdict_non_icann eTLD :
    Contains (url_Hostname url) "." = true ->
    PublicSuffix (url_Hostname url) = (eTLD, false) -> eTLD <> "" ->
    Contains eTLD "." && snd (PublicSuffix ("test." ++ rightmost_label eTLD)) = false ->
    name_verdict url (rejected "invalid or non-ICANN TLD" eTLD).

Inductive verdict (raw : string) : ValidationResult -> Prop :=
| verdict_parse_error err :
    parse_outcome raw = inr err ->
    verdict raw (rejected ("parse error: " ++ err) "")
| verdict_ip url ip :
    parse_outcome raw = inl url -> net_ParseIP (url_Hostname url) = Some ip ->
    verdict raw (accepted "valid IP address" URLTypeIP (net_IP_String ip) url)
| verdict_name url r :
    parse_outcome raw = inl url -> net_ParseIP (url_Hostname url) = None ->
    name_verdict url r ->
    verdict raw r.

(** Whether [ValidateDomain] returns a valid result. *)
Definition is_valid (raw : string) : bool :=
  match ValidateDomain raw with
  | Ret result => Valid result
  | Panic => false
  end.

End Outcomes.

(** * Lemmas *)

(** ** Strings *)

Lemma append_nil_r (s : string) : s ++ "" = s.
Proof. induction s as [|c s IH]; simpl; [reflexivity | now rewrite IH]. Qed.

Lemma append_assoc (a b c : string) : (a ++ b) ++ c = a ++ b ++ c.
Proof. induction a as [|x a IH]; simpl; [reflexivity | now rewrite IH]. Qed.


Lemma append_eq_nil (a b : string) : a ++ b = "" -> a = "" /\ b = "".
Proof. destruct a; simpl; [auto | discriminate]. Qed.

(** ** The matcher against the language of a pattern *)

Lemma then_ways_sound (P Q R : string -> Prop) first next s :
  (forall m1 m2, P m1 -> Q m2 -> R (m1 ++ m2)) ->
  Forall (sound_way P s) first ->
  (forall s1, Forall (sound_way Q s1) (next s1)) ->
  Forall (sound_way R s) (then_ways first next).
Proof.
  intros HR Hfirst Hnext. unfold then_ways.
  rewrite Forall_forall in *. intros [m rest] Hin.
  apply in_flat_map in Hin. destruct Hin as [[m1 s1] [Hin1 Hin2]].
  apply in_map_iff in Hin2. destruct Hin2 as [[m2 s2] [Heq Hin2]].
  inversion Heq; subst m rest; clear Heq.
  destruct (Hfirst _ Hin1) as [E1 P1]. specialize (Hnext s1).
  rewrite Forall_forall in Hnext. destruct (Hnext _ Hin2) as [E2 Q2].
  unfold sound_way. simpl in *. split.
  - rewrite append_assoc. now rewrite <- E2.
  - now apply HR.
Qed.

Lemma star_ways_sound r body :
  (forall s, Forall (sound_way (Matches r) s) (body s)) ->
  forall fuel s, Forall (sound_way (Matches (Star r)) s) (star_ways body fuel s).
Proof.
  intros Hbody. induction fuel as [|fuel IH]; intros s; simpl.
  - constructor; [split; simpl; auto | constructor].
  - apply Forall_app. split.
    + apply then_ways_sound with (P := Matches r) (Q := Matches (Star r)); auto.
      apply Forall_forall. intros w Hin. apply filter_In in Hin.
      destruct Hin as [Hin _]. specialize (Hbody s).
      rewrite Forall_forall in Hbody. now apply Hbody.
    + constructor; [split; simpl; auto | constructor].
Qed.

Lemma run_sound r : forall s, Forall (sound_way (Matches r) s) (run r s).
Proof.
  induction r as [|negated ranges|r1 IH1 r2 IH2|r1 IH1 r2 IH2|r IH]; intros s; simpl.
  - constructor; [split; simpl; auto | constructor].
  - destruct s as [|c rest]; [constructor|].
    destruct (in_class negated ranges c) eqn:Hc; [|constructor].
    constructor; [split; simpl; auto | constructor].
  - apply then_ways_sound with (P := Matches r1) (Q := Matches r2); auto.
  - apply Forall_app. split.
    + eapply Forall_impl; [|apply IH1]. intros w [E M]. split; auto.
    + eapply Forall_impl; [|apply IH2]. intros w [E M]. split; auto.
  - now apply star_ways_sound.
Qed.

Lemma match_here_sound r s m :
  match_here r s = Some m -> exists rest, s = m ++ rest /\ Matches r m.
Proof.
  unfold match_here. intros H. pose proof (run_sound r s) as Hs.
  destruct (run r s) as [|[m' rest] ws]; [discriminate|].
  inversion H; subst m'. inversion Hs as [|w l [E M] _]; subst.
  exists rest. simpl in *. auto.
Qed.

(** ** Matches are found from left to right *)

Lemma skip_bytes_append (m rest : string) : skip_bytes (String.length m) (m ++ rest) = rest.
Proof. induction m as [|c m IH]; simpl; [now destruct rest | exact IH]. Qed.

Lemma occurs_shift l c text :
  occurs_in_order l text -> occurs_in_order l (String c text).
Proof.
  intros H. destruct H as [text|before s after rest H].
  - constructor.
  - change (String c (before ++ s ++ after)) with (String c before ++ s ++ after).
    now constructor.
Qed.

Lemma occurs_prepend l p text :
  occurs_in_order l text -> occurs_in_order l (p ++ text).
Proof. intros H. induction p as [|c p IH]; simpl; [exact H | now apply occurs_shift]. Qed.

Lemma occurs_filter (f : string -> bool) l text :
  occurs_in_order l text -> occurs_in_order (filter f l) text.
Proof.
  intros H. induction H as [text|before s after rest H IH]; simpl.
  - constructor.
  - destruct (f s).
    + now constructor.
    + apply occurs_prepend. now apply occurs_prepend.
Qed.

Lemma occurs_substring l text s :
  occurs_in_order l text -> In s l -> exists before after, text = before ++ s ++ after.
Proof.
  intros H. induction H as [text|before s' after rest H IH]; intros Hin.
  - destruct Hin.
  - destruct Hin as [->|Hin].
    + now exists before, after.
    + destruct (IH Hin) as [b [a ->]].
      exists (before ++ s' ++ b), a. now rewrite !append_assoc.
Qed.

Lemma allMatches_in_order r s :
  forall skip abut, occurs_in_order (allMatches r skip abut s) (skip_bytes skip s).
Proof.
  induction s as [|a s IH]; intros skip abut.
  - destruct skip as [|k]; simpl; [|constructor].
    destruct (match_here r "") as [m|] eqn:Hm; [|constructor].
    apply match_here_sound in Hm. destruct Hm as [rest [E _]].
    symmetry in E. apply append_eq_nil in E. destruct E as [-> ->].
    rewrite app_nil_r. destruct abut; [constructor|].
    apply (@occurs_next "" "" "" []). constructor.
  - destruct skip as [|k]; [|simpl; apply IH].
    cbn [allMatches skip_bytes].
    destruct (match_here r (String a s)) as [m|] eqn:Hm.
    + apply match_here_sound in Hm. destruct Hm as [rest [E _]].
      destruct m as [|c m].
      * assert (occurs_in_order (allMatches r 0 false s) (String a s)) as Hrest
          by (apply occurs_shift; apply (IH 0 false)).
        destruct abut; simpl; [exact Hrest|].
        now apply (@occurs_next "" "" (String a s)).
      * simpl in E. inversion E; subst a s.
        apply (@occurs_next "" (String c m) rest).
        specialize (IH (String.length m) true).
        now rewrite skip_bytes_append in IH.
    + apply occurs_shift. apply (IH 0 false).
Qed.

Lemma allMatches_Matches r s :
  forall skip abut m, In m (allMatches r skip abut s) -> Matches r m.
Proof.
  induction s as [|a s IH]; intros skip abut m.
  - destruct skip as [|k]; simpl; [|intros []].
    destruct (match_here r "") as [m'|] eqn:Hm; [|intros []].
    apply match_here_sound in Hm. destruct Hm as [rest [E M]].
    destruct m' as [|c m']; [|discriminate].
    rewrite app_nil_r. destruct abut; simpl; [intros []|]. intros [<-|[]]. exact M.
  - destruct skip as [|k]; [|simpl; apply IH].
    cbn [allMatches].
    destruct (match_here r (String a s)) as [m'|] eqn:Hm; [|apply IH].
    apply match_here_sound in Hm. destruct Hm as [rest [E M]].
    destruct m' as [|c m'].
    + intros Hin. apply in_app_or in Hin. destruct Hin as [Hin|Hin]; [|now apply IH in Hin].
      destruct abut; simpl in Hin; [destruct Hin|]. destruct Hin as [<-|[]]. exact M.
    + intros [<-|Hin]; [exact M | now apply IH in Hin].
Qed.

(** ** Slices and trimming *)

Lemma index_slice_last (A : Type) (l : list A) (d : A) :
  l <> [] -> index_slice l (Z.of_nat (List.length l) - 1) = Ret (List.last l d).
Proof.
  intros Hl. unfold index_slice.
  destruct (Z.ltb_spec (Z.of_nat (List.length l) - 1) 0) as [Hneg|_].
  - destruct l; [congruence | simpl List.length in Hneg; lia].
  - replace (Z.to_nat (Z.of_nat (List.length l) - 1)) with (List.length l - 1) by lia.
    induction l as [|x l IH]; [congruence|].
    destruct l as [|y l]; [reflexivity|].
    change (List.last (x :: y :: l) d) with (List.last (y :: l) d).
    rewrite <- IH by discriminate.
    simpl. now rewrite Nat.sub_0_r.
Qed.

Lemma Split_not_nil (s : string) (sep : ascii) : Split s sep <> [].
Proof.
  destruct s as [|c s]; simpl; [discriminate|].
  destruct (Ascii.eqb c sep); [discriminate|].
  destruct (Split s sep); discriminate.
Qed.

Lemma TrimRight_last (s cutset : string) (c : ascii) :
  last_byte (TrimRight s cutset) = Some c -> mem_ascii c cutset = false.
Proof.
  induction s as [|a s IH]; simpl; [discriminate|].
  destruct (TrimRight s cutset) as [|b kept] eqn:Hk.
  - destruct (mem_ascii a cutset) eqn:Ha; simpl; [discriminate|].
    intros E. now inversion E; subst.
  - exact IH.
Qed.

Lemma TrimRight_keeps (s cutset : string) :
  match last_byte s with
  | Some c => mem_ascii c cutset = false
  | None => True
  end ->
  TrimRight s cutset = s.
Proof.
  induction s as [|a s IH]; simpl; [reflexivity|].
  destruct s as [|b s].
  - simpl. intros ->. reflexivity.
  - intros H. rewrite (IH H). reflexivity.
Qed.

Lemma TrimRight_idempotent (s cutset : string) :
  TrimRight (TrimRight s cutset) cutset = TrimRight s cutset.
Proof.
  apply TrimRight_keeps.
  destruct (last_byte (TrimRight s cutset)) as [c|] eqn:Hc; [|exact I].
  now apply TrimRight_last in Hc.
Qed.

(** What is trimmed off is a tail made of bytes of the cutset. *)
Lemma TrimRight_prefix (s cutset : string) :
  exists dropped,
    s = TrimRight s cutset ++ dropped /\
    all_bytes (fun c => mem_ascii c cutset) dropped = true.
Proof.
  induction s as [|a s [dropped [IH Hall]]]; simpl.
  - now exists "".
  - destruct (TrimRight s cutset) as [|b kept] eqn:Hk.
    + destruct (mem_ascii a cutset) eqn:Ha.
      * exists (String a s). split; [reflexivity|]. simpl in IH. subst dropped.
        simpl. now rewrite Ha.
      * exists s. split; [reflexivity|]. simpl in IH. now subst dropped.
    + exists dropped. split; [|exact Hall]. simpl. now rewrite IH at 1.
Qed.

Lemma occurs_trim (cutset : string) l text :
  occurs_in_order l text ->
  occurs_in_order (map (fun s => TrimRight s cutset) l) text.
Proof.
  intros H. induction H as [text|before s after rest H IH]; simpl.
  - constructor.
  - destruct (TrimRight_prefix s cutset) as [dropped [E _]].
    rewrite E at 2. rewrite append_assoc.
    constructor. now apply occurs_prepend.
Qed.

(** ** The classifier, case by case *)

Section Verdicts.

Context {L : GoLibs}.

Lemma validateDomainName_verdict (url : url_URL) :
  exists r, validateDomainName url = Ret r /\ name_verdict url r.
Proof.
  unfold validateDomainName.
  destruct (String.eqb_spec (url_Hostname url) "") as [Hempty|Hfull].
  { eexists. split; [reflexivity | now constructor]. }
  destruct (Contains (url_Hostname url) ".") eqn:Hdot; cbn [negb].
  2: { eexists. split; [reflexivity | now constructor]. }
  destruct (PublicSuffix (url_Hostname url)) as [eTLD icann] eqn:Hps.
  destruct (String.eqb_spec eTLD "") as [->|HeTLD].
  { eexists. split; [reflexivity | now apply verdict_no_suffix with icann]. }
  destruct icann.
  { eexists. split; [reflexivity | now constructor]. }
  destruct (Contains eTLD ".") eqn:Hsub.
  2: { eexists. split; [reflexivity | now apply verdict_non_icann; rewrite ?Hsub]. }
  rewrite (index_slice_last "" (Split_not_nil eTLD ".")). cbn [bind].
  fold (rightmost_label eTLD).
  destruct (snd (PublicSuffix ("test." ++ rightmost_label eTLD))) eqn:Hprobe.
  - eexists. split; [reflexivity | now constructor].
  - eexists. split; [reflexivity|].
    apply verdict_non_icann; auto. now rewrite Hsub, Hprobe.
Qed.

Lemma URL_Parse_outcome (u : option url_URL) (raw : string) :
  keeps_http_scheme -> URL_Parse u ("http://" ++ raw) = Ret (reparsed raw).
Proof.
  intros H. unfold URL_Parse, reparsed.
  destruct (url_Parse ("http://" ++ raw)) as [refURL|err] eqn:Hp; [|reflexivity].
  unfold URL_ResolveReference.
  destruct (String.eqb_spec (url_Scheme refURL) "") as [Hs|_]; [|reflexivity].
  now apply H in Hp.
Qed.

Lemma parseCandidate_outcome (raw : string) :
  keeps_http_scheme -> parseCandidate raw = Ret (parse_outcome raw).
Proof.
  intros H. unfold parseCandidate, parse_outcome, needs_scheme.
  destruct (url_Parse raw) as [url|err].
  - destruct (String.eqb (url_Host url) ""); [now apply URL_Parse_outcome | reflexivity].
  - now apply URL_Parse_outcome.
Qed.

Lemma ValidateDomain_verdict (raw : string) :
  keeps_http_scheme -> exists r, ValidateDomain raw = Ret r /\ verdict raw r.
Proof.
  intros H. unfold ValidateDomain. rewrite (parseCandidate_outcome raw H). simpl.
  destruct (parse_outcome raw) as [url|err] eqn:Hp.
  - destruct (net_ParseIP (url_Hostname url)) as [ip|] eqn:Hip.
    + eexists. split; [reflexivity | now apply verdict_ip].
    + destruct (validateDomainName_verdict url) as [r [Hr Hv]].
      exists r. split; [exact Hr | now apply verdict_name with url].
  - eexists. split; [reflexivity | now apply verdict_parse_error].
Qed.

(** Whether [ValidateDomain] returns a valid result. *)
Lemma extractLoop_filter (H : keeps_http_scheme) (matches : list string) :
  forall validURLs,
    extractLoop matches validURLs =
    Ret (validURLs ++ filter is_valid (map (fun raw => TrimRight raw ".,)") matches))%list.
Proof.
  induction matches as [|raw rest IH]; intros validURLs; simpl.
  - now rewrite app_nil_r.
  - unfold is_valid at 1.
    destruct (ValidateDomain_verdict (TrimRight raw ".,)") H) as [r [-> _]]. simpl.
    destruct (Valid r); rewrite IH; [|reflexivity].
    now rewrite <- app_assoc.
Qed.

Lemma ExtractAll_filter (H : keeps_http_scheme) (text : string) :
  ExtractAll text = Ret (filter is_valid (candidates text)).
Proof. unfold ExtractAll, candidates. now rewrite extractLoop_filter. Qed.

End Verdicts.

(** ** The shape of what the pattern matches *)

Lemma Matches_Eps_inv (m : string) : Matches Eps m -> m = "".
Proof. intros H. now inversion H. Qed.

Lemma Matches_Cls_inv negated ranges (m : string) :
  Matches (Cls negated ranges) m ->
  exists c, m = String c "" /\ in_class negated ranges c = true.
Proof. intros H. inversion H; subst. now exists c. Qed.

Lemma Matches_Cat_inv r1 r2 (m : string) :
  Matches (Cat r1 r2) m ->
  exists m1 m2, m = m1 ++ m2 /\ Matches r1 m1 /\ Matches r2 m2.
Proof. intros H. inversion H; subst. now exists m1, m2. Qed.

Lemma Matches_Alt_inv r1 r2 (m : string) :
  Matches (Alt r1 r2) m -> Matches r1 m \/ Matches r2 m.
Proof. intros H. inversion H; subst; auto. Qed.

Tactic Notation "split_cat" hyp(H) ident(m1) ident(m2) ident(H1) ident(H2) :=
  apply Matches_Cat_inv in H; destruct H as (m1 & m2 & -> & H1 & H2).

Lemma in_range_point (c x : ascii) : in_range x (c, c) = true -> x = c.
Proof.
  unfold in_range. simpl. intros H. apply andb_true_iff in H. destruct H as [H1 H2].
  apply N.leb_le in H1, H2.
  rewrite <- (ascii_N_embedding x), <- (ascii_N_embedding c). f_equal. lia.
Qed.

Lemma Matches_Chr (c : ascii) (m : string) : Matches (Chr c) m -> m = String c "".
Proof.
  unfold Chr. intros H. apply Matches_Cls_inv in H. destruct H as (x & -> & Hx).
  f_equal. apply in_range_point. unfold in_class in Hx. simpl in Hx.
  now rewrite orb_false_r in Hx.
Qed.

Lemma Matches_Lit (s m : string) : Matches (Lit s) m -> m = s.
Proof.
  revert m. induction s as [|c s IH]; intros m H; simpl in H.
  - now apply Matches_Eps_inv.
  - split_cat H m1 m2 H1 H2. apply Matches_Chr in H1. apply IH in H2. now subst.
Qed.

Lemma Matches_Star_Cls negated ranges (m : string) :
  Matches (Star (Cls negated ranges)) m -> all_bytes (in_class negated ranges) m = true.
Proof.
  intros H. remember (Star (Cls negated ranges)) as r eqn:Hr.
  induction H as [| | | | | |r0 m1 m2 H1 _ H2 IH2]; try discriminate; [reflexivity|].
  inversion Hr; subst r0. apply Matches_Cls_inv in H1. destruct H1 as (c & -> & Hc).
  simpl. rewrite Hc. now apply IH2.
Qed.

Lemma Matches_Plus_Cls negated ranges (m : string) :
  Matches (Plus (Cls negated ranges)) m ->
  m <> "" /\ all_bytes (in_class negated ranges) m = true.
Proof.
  unfold Plus. intros H. split_cat H m1 m2 H1 H2.
  apply Matches_Cls_inv in H1. destruct H1 as (c & -> & Hc).
  apply Matches_Star_Cls in H2. simpl. rewrite Hc. split; [discriminate | exact H2].
Qed.

Lemma all_bytes_ext (p q : ascii -> bool) (s : string) :
  (forall c, p c = q c) -> all_bytes p s = all_bytes q s.
Proof. intros E. induction s as [|c s IH]; simpl; [reflexivity | now rewrite E, IH]. Qed.

Lemma all_bytes_impl (p q : ascii -> bool) (s : string) :
  (forall c, p c = true -> q c = true) -> all_bytes p s = true -> all_bytes q s = true.
Proof.
  intros E. induction s as [|c s IH]; simpl; [reflexivity|].
  intros H. apply andb_true_iff in H. destruct H as [Hc Hs].
  now rewrite (E _ Hc), IH.
Qed.

Ltac each_ascii c := destruct c as [[] [] [] [] [] [] [] []]; reflexivity.

Lemma class_label_head (c : ascii) :
  in_class false [("a", "z"); ("A", "Z"); ("0", "9")]%char c = ascii_alnum c.
Proof. each_ascii c. Qed.

Lemma class_label_tail (c : ascii) :
  in_class false [("-", "-"); ("a", "z"); ("A", "Z"); ("0", "9")]%char c
  = ascii_alnum_hyphen c.
Proof. each_ascii c. Qed.

Lemma class_digit (c : ascii) : in_class false [("0", "9")]%char c = ascii_digit c.
Proof. each_ascii c. Qed.

Lemma class_hex_colon (c : ascii) :
  in_class false [("0", "9"); ("a", "f"); ("A", "F"); (":", ":")]%char c = ascii_hex_colon c.
Proof. each_ascii c. Qed.

Lemma class_non_space (c : ascii) : in_class true white_space c = negb (ascii_space c).
Proof. each_ascii c. Qed.

Lemma digit_is_alnum (c : ascii) : ascii_digit c = true -> ascii_alnum c = true.
Proof. unfold ascii_alnum. intros ->. apply orb_true_r. Qed.

Lemma alnum_is_alnum_hyphen (c : ascii) : ascii_alnum c = true -> ascii_alnum_hyphen c = true.
Proof. unfold ascii_alnum_hyphen. now intros ->. Qed.

Lemma Matches_label (m : string) : Matches label m -> is_label m = true.
Proof.
  unfold label, label_head, label_tail. intros H. split_cat H m1 m2 H1 H2.
  apply Matches_Cls_inv in H1. destruct H1 as (c & -> & Hc).
  apply Matches_Star_Cls in H2. simpl.
  rewrite <- class_label_head, Hc. simpl.
  now rewrite <- (all_bytes_ext _ _ m2 class_label_tail).
Qed.

Lemma digits_label (c : ascii) (rest : string) :
  ascii_digit c = true -> all_bytes ascii_digit rest = true ->
  is_label (String c rest) = true.
Proof.
  intros Hc Hrest. simpl. rewrite (digit_is_alnum c Hc). simpl.
  apply all_bytes_impl with (p := ascii_digit); [|exact Hrest].
  intros x Hx. now apply alnum_is_alnum_hyphen, digit_is_alnum.
Qed.

Lemma Matches_digit (m : string) :
  Matches digit m -> exists c, m = String c "" /\ ascii_digit c = true.
Proof.
  unfold digit. intros H. apply Matches_Cls_inv in H. destruct H as (c & -> & Hc).
  exists c. now rewrite <- class_digit.
Qed.

Lemma Matches_octet (m : string) : Matches octet m -> is_label m = true.
Proof.
  unfold octet, Opt. intros H. split_cat H m1 m2 H1 H2.
  apply Matches_digit in H1. destruct H1 as (c1 & -> & Hc1).
  apply Matches_Alt_inv in H2. destruct H2 as [H2|H2].
  - split_cat H2 m3 m4 H3 H4.
    apply Matches_digit in H3. destruct H3 as (c2 & -> & Hc2).
    apply Matches_Alt_inv in H4. destruct H4 as [H4|H4].
    + apply Matches_digit in H4. destruct H4 as (c3 & -> & Hc3).
      apply digits_label; [exact Hc1|]. simpl. now rewrite Hc2, Hc3.
    + apply Matches_Eps_inv in H4. subst.
      apply digits_label; [exact Hc1|]. simpl. now rewrite Hc2.
  - apply Matches_Eps_inv in H2. subst. now apply digits_label.
Qed.

Lemma concat_dot_each (l : string) (labels : list string) :
  String.concat "." (l :: labels) = l ++ dot_each labels.
Proof.
  revert l. induction labels as [|x labels IH]; intros l.
  - simpl. now rewrite append_nil_r.
  - change (String.concat "." (l :: x :: labels))
      with (l ++ "." ++ String.concat "." (x :: labels)).
    now rewrite IH.
Qed.

Lemma Matches_dot_labels (m : string) :
  Matches (Star (Cat (Chr ".") label)) m ->
  exists labels, forallb is_label labels = true /\ m = dot_each labels.
Proof.
  intros H. remember (Star (Cat (Chr ".") label)) as r eqn:Hr.
  induction H as [| | | | | |r0 m1 m2 H1 _ H2 IH2]; try discriminate.
  - now exists [].
  - inversion Hr; subst r0. destruct (IH2 Hr) as [labels [Hl ->]].
    split_cat H1 d l Hd Hlabel. apply Matches_Chr in Hd. apply Matches_label in Hlabel.
    subst d. exists (l :: labels). simpl. rewrite Hlabel, Hl. now split.
Qed.

Lemma Matches_name_host (m : string) : Matches name_host m -> dotted_labels m.
Proof.
  unfold name_host, Plus. intros H. split_cat H l0 rest H0 Hrest.
  apply Matches_label in H0. split_cat Hrest one more Hfirst Hmore.
  split_cat Hfirst d l1 Hd H1. apply Matches_Chr in Hd. apply Matches_label in H1. subst d.
  apply Matches_dot_labels in Hmore. destruct Hmore as [labels [Hl ->]].
  exists (l0 :: l1 :: labels). split; [simpl; lia|]. split.
  - simpl. now rewrite H0, H1, Hl.
  - rewrite concat_dot_each. reflexivity.
Qed.

Lemma Matches_dot_octet (m : string) :
  Matches (Cat (Chr ".") octet) m -> exists o, is_label o = true /\ m = "." ++ o.
Proof.
  intros H. split_cat H d o Hd Ho. apply Matches_Chr in Hd. apply Matches_octet in Ho.
  subst d. now exists o.
Qed.

Lemma Matches_quad_host (m : string) : Matches quad_host m -> dotted_labels m.
Proof.
  unfold quad_host. cbv zeta. intros H. split_cat H o1 r1 H1 Hr1.
  split_cat Hr1 d2 r2 H2 Hr2. split_cat Hr2 d3 d4 H3 H4.
  apply Matches_octet in H1.
  apply Matches_dot_octet in H2, H3, H4.
  destruct H2 as [o2 [L2 ->]], H3 as [o3 [L3 ->]], H4 as [o4 [L4 ->]].
  exists [o1; o2; o3; o4]. split; [simpl; lia|]. split.
  - simpl. now rewrite H1, L2, L3, L4.
  - rewrite concat_dot_each. simpl. now rewrite !append_nil_r.
Qed.

Lemma Matches_bracket_host (m : string) : Matches bracket_host m -> bracketed m.
Proof.
  unfold bracket_host, hex_colon. intros H. split_cat H open rest Hopen Hrest.
  split_cat Hrest inner close Hinner Hclose.
  apply Matches_Chr in Hopen, Hclose. apply Matches_Plus_Cls in Hinner.
  destruct Hinner as [Hne Hall]. subst. exists inner. split; [exact Hne|].
  split; [|reflexivity]. now rewrite <- (all_bytes_ext _ _ inner class_hex_colon).
Qed.

Lemma Matches_port_part (m : string) : Matches port_part m -> port_shape m.
Proof.
  unfold port_part, Opt, digit. intros H. apply Matches_Alt_inv in H. destruct H as [H|H].
  - split_cat H colon digits Hcolon Hdigits. apply Matches_Chr in Hcolon.
    apply Matches_Plus_Cls in Hdigits. destruct Hdigits as [Hne Hall]. subst.
    right. exists digits. split; [exact Hne|]. split; [|reflexivity].
    now rewrite <- (all_bytes_ext _ _ digits class_digit).
  - apply Matches_Eps_inv in H. now left.
Qed.

Lemma Matches_path_part (m : string) : Matches path_part m -> path_shape m.
Proof.
  unfold path_part, Opt, non_space. intros H. apply Matches_Alt_inv in H. destruct H as [H|H].
  - split_cat H slash rest Hslash Hrest. apply Matches_Chr in Hslash.
    apply Matches_Star_Cls in Hrest. subst. right. exists rest. split; [|reflexivity].
    now rewrite <- (all_bytes_ext _ _ rest class_non_space).
  - apply Matches_Eps_inv in H. now left.
Qed.

Lemma Matches_scheme_url (m : string) : Matches scheme_url m -> scheme_prefixed m.
Proof.
  unfold scheme_url, Opt. intros H. split_cat H http r1 Hhttp Hr1.
  split_cat Hr1 s r2 Hs Hr2. split_cat Hr2 sep rest Hsep Hrest.
  apply Matches_Lit in Hhttp, Hsep. subst. exists rest.
  apply Matches_Alt_inv in Hs. destruct Hs as [Hs|Hs].
  - apply Matches_Chr in Hs. subst. now right.
  - apply Matches_Eps_inv in Hs. subst. now left.
Qed.

Lemma Matches_urlRegex (m : string) :
  Matches urlRegex m -> scheme_prefixed m \/ bare_host_shape m.
Proof.
  unfold urlRegex, bare_host. intros H. apply Matches_Alt_inv in H. destruct H as [H|H].
  - left. now apply Matches_scheme_url.
  - right. split_cat H host tail Hhost Htail. split_cat Htail port path Hport Hpath.
    apply Matches_port_part in Hport. apply Matches_path_part in Hpath.
    exists host, port, path. split; [reflexivity|]. split; [|now split].
    apply Matches_Alt_inv in Hhost. destruct Hhost as [Hhost|Hhost].
    { left. now apply Matches_bracket_host. }
    right. apply Matches_Alt_inv in Hhost. destruct Hhost as [Hhost|Hhost].
    + now apply Matches_quad_host.
    + now apply Matches_name_host.
Qed.

Lemma Contains_append (a b : string) (c : ascii) :
  Contains (a ++ b) c = Contains a c || Contains b c.
Proof.
  unfold Contains. induction a as [|x a IH]; simpl; [reflexivity|].
  now rewrite IH, orb_assoc.
Qed.

Lemma dotted_labels_Contains (host : string) : dotted_labels host -> Contains host "." = true.
Proof.
  intros [labels [Hlen [_ ->]]].
  destruct labels as [|l [|l' labels]]; simpl in Hlen; try lia.
  rewrite concat_dot_each. rewrite Contains_append. simpl. apply orb_true_r.
Qed.

Lemma bare_host_no_dot (m : string) :
  bare_host_shape m -> Contains m "." = false -> exists rest, m = "[" ++ rest.
Proof.
  intros [host [port [path [-> [[Hb|Hd] _]]]]] Hdot.
  - destruct Hb as [inner [_ [_ ->]]]. simpl. eauto.
  - apply dotted_labels_Contains in Hd. rewrite Contains_append, Hd in Hdot. discriminate.
Qed.

(** ** The tests of the package, on the sample libraries *)

Example test_ValidateDomain_example_com :
  @ValidateDomain Sample.libs "example.com" =
  Ret (@accepted Sample.libs "valid ICANN domain" URLTypeICANN "com" (Sample.http_url "example.com" "")).
Proof. reflexivity. Qed.

Example test_ValidateDomain_ip_with_port :
  @ValidateDomain Sample.libs "192.168.1.1:8080" =
  Ret (@accepted Sample.libs "valid IP address" URLTypeIP "192.168.1.1"
         (Sample.http_url "192.168.1.1:8080" "")).
Proof. reflexivity. Qed.

Example test_ValidateDomain_dyndns :
  @ValidateDomain Sample.libs "foo.dyndns.org" =
  Ret (@accepted Sample.libs "valid domain built on ICANN TLD" URLTypeNonICANN "dyndns.org"
         (Sample.http_url "foo.dyndns.org" "")).
Proof. reflexivity. Qed.

Example test_ValidateDomain_rejected :
  map (@ValidateDomain Sample.libs)
      ["test.local"; "not_a_valid_domain.dse"; "justtext"; "weird:123"] =
  [Ret (@rejected Sample.libs "invalid or non-ICANN TLD" "local");
   Ret (@rejected Sample.libs "invalid or non-ICANN TLD" "dse");
   Ret (@rejected Sample.libs "no valid TLD found" "");
   Ret (@rejected Sample.libs "no valid TLD found" "")].
Proof. reflexivity. Qed.

Example test_ExtractAll_package_comment :
  @ExtractAll Sample.libs "Visit https://example.com and check foo.dyndns.org" =
  Ret ["https://example.com"; "foo.dyndns.org"].
Proof. vm_compute. reflexivity. Qed.

Example test_ExtractAllExactText :
  @ExtractAll Sample.libs
    "Visit example.com and also check https://google.com/search?q=test" =
  Ret ["example.com"; "https://google.com/search?q=test"].
Proof. vm_compute. reflexivity. Qed.

Example test_FindAllString_hosts :
  FindAllString urlRegex
    "- weird:123 - justtext - foo.bar - http://[2001:db8::1]:443/page - server.com:8080/index.html"
    (-1) =
  ["foo.bar"; "http://[2001:db8::1]:443/page"; "server.com:8080/index.html"].
Proof. vm_compute. reflexivity. Qed.

(** ** The sample libraries *)

Lemma Sample_getScheme_http (raw : string) :
  Sample.getScheme true ("http://" ++ raw) = Sample.SchemeRest "http" ("//" ++ raw).
Proof. reflexivity. Qed.

Lemma Sample_keeps_http_scheme : @keeps_http_scheme Sample.libs.
Proof.
  intros raw url. cbn [url_Parse url_Scheme Sample.libs]. unfold Sample.Parse.
  rewrite Sample_getScheme_http.
  change (Sample.ToLower "http") with "http".
  change (HasPrefix ("//" ++ raw) "/") with true.
  change (HasPrefix ("//" ++ raw) "//") with true.
  change (Sample.skip_slashes ("//" ++ raw)) with raw.
  cbn [negb andb orb String.eqb Ascii.eqb Bool.eqb].
  destruct (Sample.cut_first raw "/") as [[authority path]|];
    destruct (Sample.parseHost _) as [host|msg]; intros E; inversion E; discriminate.
Qed.

(** * The claims *)

(** C1. A candidate whose host is a domain name and whose suffix lookup,
    the one made for a host with a dot, returns a non-empty suffix that is
    not an ICANN one: when the suffix has a dot and the lookup of the probe
    host made of test, a dot and the rightmost label of the suffix reports
    ICANN, the result is valid, of type NonICANN, with the reason valid
    domain built on ICANN TLD and the suffix as TLD; otherwise it is invalid,
    with the reason invalid or non-ICANN TLD, and TLD is still the suffix. *)
Theorem non_icann_suffix_verdict {L : GoLibs} (raw : string) (url : url_URL)
    (suffix : string) :
  parseCandidate raw = Ret (inl url) ->
  net_ParseIP (url_Hostname url) = None ->
  Contains (url_Hostname url) "." = true ->
  PublicSuffix (url_Hostname url) = (suffix, false) ->
  suffix <> "" ->
  ValidateDomain raw =
  Ret (if Contains suffix "." && snd (PublicSuffix ("test." ++ rightmost_label suffix))
       then {| Valid := true; Reason := "valid domain built on ICANN TLD";
               Type_ := URLTypeNonICANN; TLD := suffix; URL := Some url |}
       else {| Valid := false; Reason := "invalid or non-ICANN TLD";
               Type_ := URLTypeInvalid; TLD := suffix; URL := None |}).
Proof.
  intros Hparse Hip Hdot Hps Hsuffix.
  unfold ValidateDomain. rewrite Hparse. cbn [bind]. rewrite Hip.
  unfold validateDomainName.
  destruct (String.eqb_spec (url_Hostname url) "") as [Hempty|_].
  { rewrite Hempty in Hdot. discriminate. }
  rewrite Hdot. cbn [negb]. rewrite Hps.
  destruct (String.eqb_spec suffix "") as [Hnil|_]; [contradiction|].
  destruct (Contains suffix "."); cbn [andb]; [|reflexivity].
  rewrite (index_slice_last "" (Split_not_nil suffix ".")). cbn [bind].
  fold (rightmost_label suffix).
  now destruct (snd (PublicSuffix ("test." ++ rightmost_label suffix))).
Qed.

Lemma non_icann_suffix_verdict_witness :
  @ValidateDomain Sample.libs "foo.dyndns.org" =
  Ret {| Valid := true; Reason := "valid domain built on ICANN TLD";
         Type_ := URLTypeNonICANN; TLD := "dyndns.org";
         URL := Some (Sample.http_url "foo.dyndns.org" "" : @url_URL Sample.libs) |}
  /\
  @ValidateDomain Sample.libs "test.local" =
  Ret {| Valid := false; Reason := "invalid or non-ICANN TLD";
         Type_ := URLTypeInvalid; TLD := "local"; URL := None |}.
Proof.
  split.
  - apply (@non_icann_suffix_verdict Sample.libs "foo.dyndns.org"
             (Sample.http_url "foo.dyndns.org" "") "dyndns.org");
      [reflexivity | reflexivity | reflexivity | reflexivity | discriminate].
  - apply (@non_icann_suffix_verdict Sample.libs "test.local"
             (Sample.http_url "test.local" "") "local");
      [reflexivity | reflexivity | reflexivity | reflexivity | discriminate].
Defined.

(** C2. Under the one fact about the parser that rules a panic out,
    [ExtractAll] returns a list of strings each of which occurs in the text,
    which occur there from left to right without overlap, and each of which
    [ValidateDomain] finds valid; the list is empty when no candidate is
    valid. *)
Theorem ExtractAll_sound {L : GoLibs} (H : keeps_http_scheme) (text : string) :
  exists found,
    ExtractAll text = Ret found /\
    Forall (fun s => substring_of s text) found /\
    occurs_in_order found text /\
    Forall (fun s => exists r, ValidateDomain s = Ret r /\ Valid r = true) found /\
    ((forall c r, In c (candidates text) -> ValidateDomain c = Ret r -> Valid r = false) ->
     found = []).
Proof.
  exists (filter is_valid (candidates text)).
  assert (occurs_in_order (filter is_valid (candidates text)) text) as Hord.
  { apply occurs_filter. unfold candidates. apply occurs_trim.
    unfold FindAllString. cbn [Z.ltb Z.compare].
    apply (allMatches_in_order urlRegex text 0 false). }
  split; [now apply ExtractAll_filter|]. split; [|split; [exact Hord|split]].
  - apply Forall_forall. intros s Hin. exact (@occurs_substring _ text s Hord Hin).
  - apply Forall_forall. intros s Hin. apply filter_In in Hin. destruct Hin as [_ Hv].
    unfold is_valid in Hv. destruct (ValidateDomain s) as [r|]; [|discriminate].
    now exists r.
  - intros Hnone. destruct (filter is_valid (candidates text)) as [|s rest] eqn:Hf;
      [reflexivity|].
    assert (In s (filter is_valid (candidates text))) as Hin by (rewrite Hf; now left).
    apply filter_In in Hin. destruct Hin as [Hin Hv]. unfold is_valid in Hv.
    destruct (ValidateDomain s) as [r|] eqn:Hr; [|discriminate].
    rewrite (Hnone s r Hin Hr) in Hv. discriminate.
Qed.

Lemma ExtractAll_sound_witness :
  exists found,
    @ExtractAll Sample.libs "Visit https://example.com and check foo.dyndns.org" = Ret found /\
    Forall (fun s => substring_of s "Visit https://example.com and check foo.dyndns.org") found /\
    occurs_in_order found "Visit https://example.com and check foo.dyndns.org" /\
    Forall (fun s => exists r, @ValidateDomain Sample.libs s = Ret r /\ Valid r = true) found /\
    ((forall c r, In c (candidates "Visit https://example.com and check foo.dyndns.org") ->
                  @ValidateDomain Sample.libs c = Ret r -> Valid r = false) ->
     found = []).
Proof.
  exact (@ExtractAll_sound Sample.libs Sample_keeps_http_scheme
           "Visit https://example.com and check foo.dyndns.org").
Defined.

(** C3. A candidate whose parsed hostname is an IP literal, whatever port
    or path follows it, is valid, of type IP, with the reason valid IP
    address, the textual form of the address as TLD and the parsed URL. *)
Theorem ip_literal_verdict {L : GoLibs} (raw : string) (url : url_URL) (ip : net_IP) :
  parseCandidate raw = Ret (inl url) ->
  net_ParseIP (url_Hostname url) = Some ip ->
  ValidateDomain raw =
  Ret {| Valid := true; Reason := "valid IP address"; Type_ := URLTypeIP;
         TLD := net_IP_String ip; URL := Some url |}.
Proof.
  intros Hparse Hip. unfold ValidateDomain. rewrite Hparse. cbn [bind]. now rewrite Hip.
Qed.

Lemma ip_literal_verdict_witness :
  @ValidateDomain Sample.libs "192.168.1.1:8080/dashboard" =
  Ret {| Valid := true; Reason := "valid IP address"; Type_ := URLTypeIP;
         TLD := "192.168.1.1";
         URL := Some (Sample.http_url "192.168.1.1:8080" "/dashboard" : @url_URL Sample.libs) |}.
Proof.
  apply (@ip_literal_verdict Sample.libs "192.168.1.1:8080/dashboard"
           (Sample.http_url "192.168.1.1:8080" "/dashboard")
           "192.168.1.1"); reflexivity.
Defined.

(** C4. [ValidateDomain] first parses the input as it is and, when that
    fails or yields an empty host, parses it again behind the scheme http;
    it returns the invalid result whose reason is parse error followed by
    the message of the parser exactly when that second parse fails too; and,
    the parser keeping the scheme it is given, it returns a result on every
    input and never panics. *)
Theorem parse_error_verdict {L : GoLibs} (H : keeps_http_scheme) (raw : string) :
  parseCandidate raw = Ret (parse_outcome raw) /\
  exists r,
    ValidateDomain raw = Ret r /\
    (forall err,
        needs_scheme raw = true -> url_Parse ("http://" ++ raw) = inr err ->
        r = {| Valid := false; Reason := "parse error: " ++ err;
               Type_ := URLTypeInvalid; TLD := ""; URL := None |}) /\
    (forall err,
        Reason r = "parse error: " ++ err ->
        needs_scheme raw = true /\ url_Parse ("http://" ++ raw) = inr err).
Proof.
  split; [now apply parseCandidate_outcome|].
  destruct (ValidateDomain_verdict raw H) as [r [Hr Hv]].
  exists r. split; [exact Hr|].
  assert (forall err, parse_outcome raw = inr err <->
                      needs_scheme raw = true /\ url_Parse ("http://" ++ raw) = inr err)
    as Hout.
  { intros err. unfold parse_outcome, reparsed, needs_scheme.
    destruct (url_Parse raw) as [url|err1].
    - destruct (String.eqb (url_Host url) "").
      + destruct (url_Parse ("http://" ++ raw)); split;
          [discriminate | intros [_ E]; discriminate
          | intros E; now inversion E | intros [_ E]; now inversion E].
      + split; [discriminate | intros [E _]; discriminate].
    - destruct (url_Parse ("http://" ++ raw)); split;
        [discriminate | intros [_ E]; discriminate
        | intros E; now inversion E | intros [_ E]; now inversion E]. }
  split.
  - intros err Hneeds Hsecond.
    assert (parse_outcome raw = inr err) as Hp by (now apply Hout).
    destruct Hv as [err' Hp'|url ip Hp' _|url r Hp' _ _]; rewrite Hp in Hp';
      [now inversion Hp' | discriminate | discriminate].
  - intros err Hreason. apply Hout.
    destruct Hv as [err' Hp'|url ip Hp' _|url r Hp' _ Hname].
    + simpl in Hreason. inversion Hreason; subst. exact Hp'.
    + simpl in Hreason. discriminate.
    + destruct Hname; simpl in Hreason; discriminate.
Qed.

Lemma parse_error_verdict_witness :
  @parseCandidate Sample.libs "a.b:x" = Ret (@parse_outcome Sample.libs "a.b:x") /\
  exists r,
    @ValidateDomain Sample.libs "a.b:x" = Ret r /\
    (forall err,
        @needs_scheme Sample.libs "a.b:x" = true ->
        @url_Parse Sample.libs ("http://" ++ "a.b:x") = inr err ->
        r = {| Valid := false; Reason := "parse error: " ++ err;
               Type_ := URLTypeInvalid; TLD := ""; URL := None |}) /\
    (forall err,
        Reason r = "parse error: " ++ err ->
        @needs_scheme Sample.libs "a.b:x" = true /\
        @url_Parse Sample.libs ("http://" ++ "a.b:x") = inr err).
Proof.
  exact (@parse_error_verdict Sample.libs Sample_keeps_http_scheme "a.b:x").
Defined.

(** C5. At an upper-case scheme the matcher does not take the scheme
    alternative: it matches the host alone, and that is what [ExtractAll]
    returns; the lower-case scheme is matched with the host as one
    candidate. *)
Theorem upper_case_scheme_is_not_matched :
  FindAllString urlRegex "HTTP://example.com" (-1) = ["example.com"] /\
  FindAllString urlRegex "HttpS://github.com" (-1) = ["github.com"] /\
  FindAllString urlRegex "http://example.com" (-1) = ["http://example.com"] /\
  @ExtractAll Sample.libs "HTTP://example.com" = Ret ["example.com"] /\
  @ExtractAll Sample.libs "http://example.com" = Ret ["http://example.com"].
Proof. repeat split; vm_compute; reflexivity. Qed.

(** C6, as the pattern has it.  A candidate either starts with the scheme
    http or https and its colon and slashes, or is a host followed by an
    optional port of digits and an optional path, where the host is a
    bracketed run of hexadecimal digits and colons or two or more labels
    separated by dots, each label not empty, starting with a letter or digit
    of ASCII and going on with letters, digits and hyphens of ASCII.  A
    candidate without a dot therefore starts with the scheme or a bracket,
    and a word such as justtext is never a candidate. *)
Theorem candidate_shape (text m : string) :
  In m (FindAllString urlRegex text (-1)) ->
  (scheme_prefixed m \/ bare_host_shape m) /\
  (Contains m "." = false -> scheme_prefixed m \/ exists rest, m = "[" ++ rest) /\
  m <> "justtext".
Proof.
  intros Hin. unfold FindAllString in Hin. cbn [Z.ltb Z.compare] in Hin.
  apply allMatches_Matches in Hin. apply Matches_urlRegex in Hin.
  assert (Contains m "." = false -> scheme_prefixed m \/ exists rest, m = "[" ++ rest)
    as Hdot.
  { intros Hno. destruct Hin as [Hs|Hb]; [now left|].
    right. now apply bare_host_no_dot. }
  split; [exact Hin|]. split; [exact Hdot|].
  intros ->. destruct (Hdot eq_refl) as [[rest [E|E]]|[rest E]]; discriminate.
Qed.

Lemma candidate_shape_witness :
  (scheme_prefixed "a-.b-" \/ bare_host_shape "a-.b-") /\
  (Contains "a-.b-" "." = false ->
   scheme_prefixed "a-.b-" \/ exists rest, "a-.b-" = "[" ++ rest) /\
  "a-.b-" <> "justtext".
Proof.
  apply (@candidate_shape "see a-.b- now" "a-.b-"). vm_compute. left. reflexivity.
Defined.

(** C6, as stated, fails: the candidate a-.b- is matched whole and is no
    sequence of labels that end with a letter or digit; and a host of two
    labels of letters outside ASCII, which has that shape, is not matched. *)
Lemma label_may_end_with_hyphen :
  FindAllString urlRegex "a-.b-" (-1) = ["a-.b-"] /\
  ~ scheme_prefixed "a-.b-" /\
  ~ strict_bare_host "a-.b-" /\
  strict_bare_host cyrillic_host /\
  FindAllString urlRegex cyrillic_host (-1) = [].
Proof.
  split; [vm_compute; reflexivity|]. split; [|split; [|split]].
  - intros [rest [E|E]]; discriminate.
  - intros [labels [tail [Hlen [Hall E]]]].
    destruct labels as [|l0 [|l1 labels]]; simpl in Hlen; try lia.
    rewrite concat_dot_each in E. cbn [dot_each] in E.
    cbn [forallb] in Hall. apply andb_true_iff in Hall. destruct Hall as [H0 _].
    destruct l0 as [|c0 [|c1 [|c2 l0]]]; simpl in E; inversion E; subst;
      vm_compute in H0; discriminate.
  - exists [String "209" (String "143" EmptyString);
            String "209" (String "128" (String "209" (String "132" EmptyString)))], "".
    split; [simpl; lia|]. split; vm_compute; reflexivity.
  - vm_compute. reflexivity.
Qed.

(** C7, as the code has it.  The URL of the result is set, to the parsed
    URL, exactly when the result is valid; an invalid result has none,
    whether the parse succeeded or not. *)
Theorem URL_set_when_valid {L : GoLibs} (H : keeps_http_scheme) (raw : string) :
  exists r,
    ValidateDomain raw = Ret r /\
    (Valid r = true ->
     exists url, parseCandidate raw = Ret (inl url) /\ URL r = Some url) /\
    (Valid r = false -> URL r = None).
Proof.
  destruct (ValidateDomain_verdict raw H) as [r [Hr Hv]].
  exists r. split; [exact Hr|]. rewrite (parseCandidate_outcome raw H).
  destruct Hv as [err Hp|url ip Hp _|url r Hp _ Hname].
  - split; [discriminate | reflexivity].
  - split; [|discriminate]. intros _. exists url. now rewrite Hp.
  - destruct Hname; (split; [|try discriminate; reflexivity]);
      try discriminate; intros _; exists url; now rewrite Hp.
Qed.

Lemma URL_set_when_valid_witness :
  exists r,
    @ValidateDomain Sample.libs "example.com" = Ret r /\
    (Valid r = true ->
     exists url, @parseCandidate Sample.libs "example.com" = Ret (inl url) /\
                 URL r = Some url) /\
    (Valid r = false -> URL r = None).
Proof.
  exact (@URL_set_when_valid Sample.libs Sample_keeps_http_scheme "example.com").
Defined.

(** C7, as stated, fails: the candidate test.local is parsed, behind the
    scheme http, and the invalid result has no URL. *)
Lemma URL_absent_after_successful_parse :
  @parseCandidate Sample.libs "test.local" = Ret (inl (Sample.http_url "test.local" "")) /\
  @ValidateDomain Sample.libs "test.local" =
  Ret {| Valid := false; Reason := "invalid or non-ICANN TLD";
         Type_ := URLTypeInvalid; TLD := "local"; URL := None |} /\
  @ValidateDomain Sample.libs "justtext" =
  Ret {| Valid := false; Reason := "no valid TLD found";
         Type_ := URLTypeInvalid; TLD := ""; URL := None |}.
Proof. repeat split; vm_compute; reflexivity. Qed.

(** C8. What is classified and returned for a match is the match without
    its trailing dots, commas and closing parentheses: [ExtractAll] returns
    the trimmed matches that are valid, a trimmed match is the match less a
    tail made of these three bytes and does not end with one of them, and
    trimming it again changes nothing.  From the text visit example.com and
    a dot the candidate is example.com. *)
Theorem ExtractAll_trims {L : GoLibs} (H : keeps_http_scheme) (text : string) :
  ExtractAll text =
  Ret (filter is_valid
         (map (fun raw => TrimRight raw ".,)") (FindAllString urlRegex text (-1)))) /\
  (forall raw,
      (exists dropped,
          raw = TrimRight raw ".,)" ++ dropped /\
          all_bytes (fun c => mem_ascii c ".,)") dropped = true) /\
      (forall c, last_byte (TrimRight raw ".,)") = Some c -> mem_ascii c ".,)" = false) /\
      TrimRight (TrimRight raw ".,)") ".,)" = TrimRight raw ".,)") /\
  map (fun raw => TrimRight raw ".,)") (FindAllString urlRegex "visit example.com." (-1))
  = ["example.com"] /\
  TrimRight "example.com/a.)," ".,)" = "example.com/a".
Proof.
  split; [now apply ExtractAll_filter|]. split; [|split; reflexivity].
  intros raw. split; [apply TrimRight_prefix|]. split.
  - intros c. apply TrimRight_last.
  - apply TrimRight_idempotent.
Qed.

Lemma ExtractAll_trims_witness :
  @ExtractAll Sample.libs "see (http://example.com/a.b), or example.org." =
  Ret ["http://example.com/a.b"; "example.org"].
Proof.
  rewrite (proj1 (@ExtractAll_trims Sample.libs Sample_keeps_http_scheme
                    "see (http://example.com/a.b), or example.org.")).
  reflexivity.
Defined.

(** C9. The type of a result is Invalid exactly when the result is not
    valid, and a valid result is of type IP, ICANN or NonICANN. *)
Theorem invalid_iff_not_valid {L : GoLibs} (H : keeps_http_scheme) (raw : string) :
  exists r,
    ValidateDomain raw = Ret r /\
    (Type_ r = URLTypeInvalid <-> Valid r = false) /\
    (Valid r = true ->
     Type_ r = URLTypeIP \/ Type_ r = URLTypeICANN \/ Type_ r = URLTypeNonICANN).
Proof.
  destruct (ValidateDomain_verdict raw H) as [r [Hr Hv]].
  exists r. split; [exact Hr|].
  destruct Hv as [err Hp|url ip Hp _|url r Hp _ Hname].
  - simpl. split; [tauto | discriminate].
  - simpl. split; [split; discriminate | auto].
  - destruct Hname; simpl; (split; [split; (reflexivity || discriminate) | ]);
      try discriminate; auto.
Qed.

Lemma invalid_iff_not_valid_witness :
  exists r,
    @ValidateDomain Sample.libs "weird:123" = Ret r /\
    (Type_ r = URLTypeInvalid <-> Valid r = false) /\
    (Valid r = true ->
     Type_ r = URLTypeIP \/ Type_ r = URLTypeICANN \/ Type_ r = URLTypeNonICANN).
Proof.
  exact (@invalid_iff_not_valid Sample.libs Sample_keeps_http_scheme "weird:123").
Defined.

(** C10. On the empty string the first parse yields no host, the parse of
    the bare scheme succeeds with an empty hostname, which is no IP address,
    and the result is the rejection with the reason empty hostname, no TLD
    and no URL. *)
Theorem empty_string_verdict {L : GoLibs} (second : url_URL) :
  needs_scheme "" = true ->
  url_Parse "http://" = inl second ->
  url_Scheme second <> "" ->
  url_Hostname (url_resolveAbsolute second) = "" ->
  net_ParseIP "" = None ->
  ValidateDomain "" =
  Ret {| Valid := false; Reason := "empty hostname"; Type_ := URLTypeInvalid;
         TLD := ""; URL := None |}.
Proof.
  intros Hneeds Hsecond Hscheme Hhost Hip.
  assert (parseCandidate "" = Ret (inl (url_resolveAbsolute second))) as Hparse.
  { unfold parseCandidate, needs_scheme in *.
    assert (URL_Parse (match url_Parse "" with inl u => Some u | inr _ => None end)
              ("http://" ++ "") = Ret (inl (url_resolveAbsolute second))) as Hretry.
    { unfold URL_Parse. cbn [append]. rewrite Hsecond. unfold URL_ResolveReference.
      destruct (String.eqb_spec (url_Scheme second) ""); [contradiction | reflexivity]. }
    destruct (url_Parse "") as [first|err]; [rewrite Hneeds|]; exact Hretry. }
  unfold ValidateDomain. rewrite Hparse. cbn [bind]. rewrite Hhost, Hip.
  unfold validateDomainName. rewrite Hhost. reflexivity.
Qed.

Lemma empty_string_verdict_witness :
  @ValidateDomain Sample.libs "" =
  Ret {| Valid := false; Reason := "empty hostname"; Type_ := URLTypeInvalid;
         TLD := ""; URL := None |}.
Proof.
  apply (@empty_string_verdict Sample.libs (Sample.http_url "" ""));
    [reflexivity | reflexivity | discriminate | reflexivity | reflexivity].
Defined.

(** * Further properties of the classifier *)

Lemma validateDomainName_by_hostname {L : GoLibs} (u1 u2 : url_URL) :
  url_Hostname u1 = url_Hostname u2 ->
  exists r1 r2,
    validateDomainName u1 = Ret r1 /\ validateDomainName u2 = Ret r2 /\
    Valid r1 = Valid r2 /\ Reason r1 = Reason r2 /\
    Type_ r1 = Type_ r2 /\ TLD r1 = TLD r2.
Proof.
  intros E. unfold validateDomainName. rewrite E.
  destruct (String.eqb (url_Hostname u2) "").
  { do 2 eexists. repeat split; reflexivity. }
  destruct (Contains (url_Hostname u2) "."); cbn [negb].
  2: { do 2 eexists. repeat split; reflexivity. }
  destruct (PublicSuffix (url_Hostname u2)) as [eTLD icann].
  destruct (String.eqb eTLD "").
  { do 2 eexists. repeat split; reflexivity. }
  destruct icann.
  { do 2 eexists. repeat split; reflexivity. }
  destruct (Contains eTLD ".").
  2: { do 2 eexists. repeat split; reflexivity. }
  rewrite (index_slice_last "" (Split_not_nil eTLD ".")). cbn [bind].
  destruct (snd (PublicSuffix ("test." ++ List.last (Split eTLD ".") "")));
    do 2 eexists; repeat split; reflexivity.
Qed.

Lemma Split_concat (s : string) (sep : ascii) :
  String.concat (String sep "") (Split s sep) = s.
Proof.
  induction s as [|a s IH]; [reflexivity|]. simpl Split.
  destruct (Ascii.eqb_spec a sep) as [->|Hne].
  - destruct (Split s sep) as [|f fs] eqn:Hs; [now apply Split_not_nil in Hs|].
    change (String.concat (String sep "") ("" :: f :: fs))
      with ("" ++ String sep "" ++ String.concat (String sep "") (f :: fs)).
    now rewrite IH.
  - destruct (Split s sep) as [|f fs] eqn:Hs; [now apply Split_not_nil in Hs|].
    destruct fs as [|g fs].
    + simpl in *. now rewrite IH.
    + change (String.concat (String sep "") (String a f :: g :: fs))
        with (String a (f ++ String sep "" ++ String.concat (String sep "") (g :: fs))).
      f_equal. exact IH.
Qed.

Lemma Split_fields (s : string) (sep : ascii) :
  Forall (fun f => Contains f sep = false) (Split s sep).
Proof.
  induction s as [|a s IH]; simpl Split.
  - constructor; [reflexivity | constructor].
  - destruct (Ascii.eqb_spec a sep) as [->|Hne].
    + constructor; [reflexivity | exact IH].
    + destruct (Split s sep) as [|f fs]; [constructor; [|constructor]|].
      * unfold Contains. simpl. rewrite Ascii.eqb_sym.
        destruct (Ascii.eqb_spec a sep); [contradiction | reflexivity].
      * inversion IH as [|x l Hf Hfs]; subst. constructor; [|exact Hfs].
        unfold Contains in *. simpl. rewrite Hf, Ascii.eqb_sym.
        destruct (Ascii.eqb_spec a sep); [contradiction | reflexivity].
Qed.

Lemma concat_last (sep : string) (xs : list string) (d : string) :
  2 <= List.length xs ->
  exists before, String.concat sep xs = before ++ sep ++ List.last xs d.
Proof.
  induction xs as [|x xs IH]; simpl List.length; [lia|].
  intros Hlen. destruct xs as [|y xs]; [simpl in Hlen; lia|].
  change (String.concat sep (x :: y :: xs)) with (x ++ sep ++ String.concat sep (y :: xs)).
  change (List.last (x :: y :: xs) d) with (List.last (y :: xs) d).
  destruct xs as [|z xs].
  - exists x. reflexivity.
  - destruct IH as [before E]; [simpl; lia|].
    exists (x ++ sep ++ before). rewrite E. now rewrite !append_assoc.
Qed.

(** X1. A parsed candidate whose hostname is empty and no IP literal is
    rejected with the reason empty hostname, without TLD or URL, whatever
    the rest of the URL is. *)
Theorem empty_hostname_rejected {L : GoLibs} (raw : string) (url : url_URL) :
  parseCandidate raw = Ret (inl url) ->
  net_ParseIP (url_Hostname url) = None ->
  url_Hostname url = "" ->
  ValidateDomain raw =
  Ret {| Valid := false; Reason := "empty hostname"; Type_ := URLTypeInvalid;
         TLD := ""; URL := None |}.
Proof.
  intros Hparse Hip Hhost. unfold ValidateDomain. rewrite Hparse. cbn [bind].
  rewrite Hip. unfold validateDomainName. now rewrite Hhost.
Qed.

Lemma empty_hostname_rejected_witness :
  @ValidateDomain Sample.libs "/index.html" =
  Ret {| Valid := false; Reason := "empty hostname"; Type_ := URLTypeInvalid;
         TLD := ""; URL := None |}.
Proof.
  apply (@empty_hostname_rejected Sample.libs "/index.html"
           (Sample.http_url "" "/index.html")); reflexivity.
Defined.

(** X2. A parsed candidate whose hostname is not empty and no IP literal,
    and either has no dot or has no public suffix, is rejected with the
    reason no valid TLD found, without TLD or URL. *)
Theorem hostname_without_suffix_rejected {L : GoLibs} (raw : string) (url : url_URL) :
  parseCandidate raw = Ret (inl url) ->
  net_ParseIP (url_Hostname url) = None ->
  url_Hostname url <> "" ->
  Contains (url_Hostname url) "." = false \/ fst (PublicSuffix (url_Hostname url)) = "" ->
  ValidateDomain raw =
  Ret {| Valid := false; Reason := "no valid TLD found"; Type_ := URLTypeInvalid;
         TLD := ""; URL := None |}.
Proof.
  intros Hparse Hip Hhost Hcase. unfold ValidateDomain. rewrite Hparse. cbn [bind].
  rewrite Hip. unfold validateDomainName.
  destruct (String.eqb_spec (url_Hostname url) "") as [Hempty|_]; [contradiction|].
  destruct (Contains (url_Hostname url) ".") eqn:Hdot; cbn [negb]; [|reflexivity].
  destruct Hcase as [Hno|Hno]; [discriminate|].
  destruct (PublicSuffix (url_Hostname url)) as [eTLD icann]. simpl in Hno. subst eTLD.
  reflexivity.
Qed.

Lemma hostname_without_suffix_rejected_witness :
  @ValidateDomain Sample.libs "http://localhost:8080/x" =
  Ret {| Valid := false; Reason := "no valid TLD found"; Type_ := URLTypeInvalid;
         TLD := ""; URL := None |}
  /\
  @ValidateDomain Sample.libs "example." =
  Ret {| Valid := false; Reason := "no valid TLD found"; Type_ := URLTypeInvalid;
         TLD := ""; URL := None |}.
Proof.
  split.
  - apply (@hostname_without_suffix_rejected Sample.libs "http://localhost:8080/x"
             (Sample.http_url "localhost:8080" "/x"));
      [reflexivity | reflexivity | discriminate | left; reflexivity].
  - apply (@hostname_without_suffix_rejected Sample.libs "example."
             (Sample.http_url "example." ""));
      [reflexivity | reflexivity | discriminate | right; reflexivity].
Defined.

(** X3. A parsed candidate whose hostname is no IP literal, has a dot and
    has a non-empty public suffix that is an ICANN one is valid, of type
    ICANN, with the reason valid ICANN domain, the suffix as TLD and the
    parsed URL. *)
Theorem icann_suffix_verdict {L : GoLibs} (raw : string) (url : url_URL)
    (suffix : string) :
  parseCandidate raw = Ret (inl url) ->
  net_ParseIP (url_Hostname url) = None ->
  Contains (url_Hostname url) "." = true ->
  PublicSuffix (url_Hostname url) = (suffix, true) ->
  suffix <> "" ->
  ValidateDomain raw =
  Ret {| Valid := true; Reason := "valid ICANN domain"; Type_ := URLTypeICANN;
         TLD := suffix; URL := Some url |}.
Proof.
  intros Hparse Hip Hdot Hps Hsuffix. unfold ValidateDomain. rewrite Hparse. cbn [bind].
  rewrite Hip. unfold validateDomainName.
  destruct (String.eqb_spec (url_Hostname url) "") as [Hempty|_].
  { rewrite Hempty in Hdot. discriminate. }
  rewrite Hdot. cbn [negb]. rewrite Hps.
  destruct (String.eqb_spec suffix "") as [Hnil|_]; [contradiction | reflexivity].
Qed.

Lemma icann_suffix_verdict_witness :
  @ValidateDomain Sample.libs "https://example.co.uk/path" =
  Ret {| Valid := true; Reason := "valid ICANN domain"; Type_ := URLTypeICANN;
         TLD := "co.uk";
         URL := Some ({| Sample.Scheme := "https"; Sample.Opaque := "";
                         Sample.Host := "example.co.uk"; Sample.Path := "/path" |}
                      : @url_URL Sample.libs) |}.
Proof.
  apply (@icann_suffix_verdict Sample.libs "https://example.co.uk/path"
           {| Sample.Scheme := "https"; Sample.Opaque := "";
              Sample.Host := "example.co.uk"; Sample.Path := "/path" |} "co.uk");
    [reflexivity | reflexivity | reflexivity | reflexivity | discriminate].
Defined.

(** X4. The reason of a result is a parse error with its message or one of
    six fixed texts, and each of the six comes with one verdict and one
    type: three rejections of type Invalid and three acceptances of types
    IP, ICANN and NonICANN. *)
Theorem reason_taxonomy {L : GoLibs} (H : keeps_http_scheme) (raw : string) :
  exists r,
    ValidateDomain raw = Ret r /\
    ((exists err, Reason r = "parse error: " ++ err /\
                  Valid r = false /\ Type_ r = URLTypeInvalid) \/
     In (Reason r, Valid r, Type_ r)
        [("empty hostname", false, URLTypeInvalid);
         ("no valid TLD found", false, URLTypeInvalid);
         ("invalid or non-ICANN TLD", false, URLTypeInvalid);
         ("valid IP address", true, URLTypeIP);
         ("valid ICANN domain", true, URLTypeICANN);
         ("valid domain built on ICANN TLD", true, URLTypeNonICANN)]).
Proof.
  destruct (ValidateDomain_verdict raw H) as [r [Hr Hv]].
  exists r. split; [exact Hr|].
  destruct Hv as [err Hp|url ip Hp _|url r Hp _ Hname].
  - left. exists err. now repeat split.
  - right. simpl. auto.
  - right. destruct Hname; simpl; auto 10.
Qed.

Lemma reason_taxonomy_witness :
  exists r,
    @ValidateDomain Sample.libs "foo.dyndns.org" = Ret r /\
    ((exists err, Reason r = "parse error: " ++ err /\
                  Valid r = false /\ Type_ r = URLTypeInvalid) \/
     In (Reason r, Valid r, Type_ r)
        [("empty hostname", false, URLTypeInvalid);
         ("no valid TLD found", false, URLTypeInvalid);
         ("invalid or non-ICANN TLD", false, URLTypeInvalid);
         ("valid IP address", true, URLTypeIP);
         ("valid ICANN domain", true, URLTypeICANN);
         ("valid domain built on ICANN TLD", true, URLTypeNonICANN)]).
Proof.
  exact (@reason_taxonomy Sample.libs Sample_keeps_http_scheme "foo.dyndns.org").
Defined.

(** X5. A result of type ICANN or NonICANN belongs to a parsed URL whose
    hostname is no IP literal and has a dot: its TLD is the public suffix of
    that hostname, not empty, the type says whether the suffix is an ICANN
    one, and a NonICANN result has a suffix with a dot whose rightmost label
    passes the probe. *)
Theorem valid_domain_suffix {L : GoLibs} (H : keeps_http_scheme) (raw : string) :
  exists r,
    ValidateDomain raw = Ret r /\
    (Type_ r = URLTypeICANN \/ Type_ r = URLTypeNonICANN ->
     exists url,
       parseCandidate raw = Ret (inl url) /\ URL r = Some url /\
       net_ParseIP (url_Hostname url) = None /\
       Contains (url_Hostname url) "." = true /\
       TLD r <> "" /\
       PublicSuffix (url_Hostname url)
       = (TLD r, match Type_ r with URLTypeICANN => true | _ => false end) /\
       (Type_ r = URLTypeNonICANN ->
        Contains (TLD r) "." = true /\
        snd (PublicSuffix ("test." ++ rightmost_label (TLD r))) = true)).
Proof.
  destruct (ValidateDomain_verdict raw H) as [r [Hr Hv]].
  exists r. split; [exact Hr|]. rewrite (parseCandidate_outcome raw H).
  destruct Hv as [err Hp|url ip Hp _|url r Hp Hip Hname].
  - simpl. intros [E|E]; discriminate.
  - simpl. intros [E|E]; discriminate.
  - destruct Hname; simpl; intros [E|E]; try discriminate; exists url; rewrite Hp;
      repeat split; auto; discriminate.
Qed.

Lemma valid_domain_suffix_witness :
  exists r,
    @ValidateDomain Sample.libs "foo.dyndns.org" = Ret r /\
    (Type_ r = URLTypeICANN \/ Type_ r = URLTypeNonICANN ->
     exists url,
       @parseCandidate Sample.libs "foo.dyndns.org" = Ret (inl url) /\ URL r = Some url /\
       @net_ParseIP Sample.libs (url_Hostname url) = None /\
       Contains (url_Hostname url) "." = true /\
       TLD r <> "" /\
       @PublicSuffix Sample.libs (url_Hostname url)
       = (TLD r, match Type_ r with URLTypeICANN => true | _ => false end) /\
       (Type_ r = URLTypeNonICANN ->
        Contains (TLD r) "." = true /\
        snd (@PublicSuffix Sample.libs ("test." ++ rightmost_label (TLD r))) = true)).
Proof.
  exact (@valid_domain_suffix Sample.libs Sample_keeps_http_scheme "foo.dyndns.org").
Defined.

(** X6. An invalid result carries a TLD exactly when its reason is invalid
    or non-ICANN TLD. *)
Theorem TLD_of_invalid_result {L : GoLibs} (H : keeps_http_scheme) (raw : string) :
  exists r,
    ValidateDomain raw = Ret r /\
    (Valid r = false -> (TLD r <> "" <-> Reason r = "invalid or non-ICANN TLD")).
Proof.
  destruct (ValidateDomain_verdict raw H) as [r [Hr Hv]].
  exists r. split; [exact Hr|].
  destruct Hv as [err Hp|url ip Hp _|url r Hp Hip Hname].
  - simpl. intros _. split; [congruence | discriminate].
  - simpl. discriminate.
  - destruct Hname; simpl; try discriminate;
      intros _; (split; [congruence || reflexivity | discriminate || auto]).
Qed.

Lemma TLD_of_invalid_result_witness :
  exists r,
    @ValidateDomain Sample.libs "test.local" = Ret r /\
    (Valid r = false -> (TLD r <> "" <-> Reason r = "invalid or non-ICANN TLD")).
Proof.
  exact (@TLD_of_invalid_result Sample.libs Sample_keeps_http_scheme "test.local").
Defined.

(** X7. A candidate without scheme and its form with the scheme http in
    front get the same verdict, reason, type and TLD, when the parse of that
    form has a host and resolving it keeps the hostname. *)
Theorem bare_candidate_like_http_form {L : GoLibs} (raw : string) (url : url_URL) :
  needs_scheme raw = true ->
  url_Parse ("http://" ++ raw) = inl url ->
  url_Scheme url <> "" ->
  url_Host url <> "" ->
  url_Hostname (url_resolveAbsolute url) = url_Hostname url ->
  exists r1 r2,
    ValidateDomain raw = Ret r1 /\ ValidateDomain ("http://" ++ raw) = Ret r2 /\
    Valid r1 = Valid r2 /\ Reason r1 = Reason r2 /\
    Type_ r1 = Type_ r2 /\ TLD r1 = TLD r2.
Proof.
  intros Hneeds Hparse Hscheme Hhost Hsame.
  assert (parseCandidate raw = Ret (inl (url_resolveAbsolute url))) as H1.
  { unfold parseCandidate, needs_scheme in *.
    assert (forall u, URL_Parse u ("http://" ++ raw) = Ret (inl (url_resolveAbsolute url)))
      as Hretry.
    { intros u. unfold URL_Parse. rewrite Hparse. unfold URL_ResolveReference.
      destruct (String.eqb_spec (url_Scheme url) ""); [contradiction | reflexivity]. }
    destruct (url_Parse raw) as [first|err]; [rewrite Hneeds|]; apply Hretry. }
  assert (parseCandidate ("http://" ++ raw) = Ret (inl url)) as H2.
  { unfold parseCandidate. rewrite Hparse.
    destruct (String.eqb_spec (url_Host url) ""); [contradiction | reflexivity]. }
  unfold ValidateDomain. rewrite H1, H2. cbn [bind]. rewrite Hsame.
  destruct (net_ParseIP (url_Hostname url)) as [ip|].
  - do 2 eexists. repeat split; reflexivity.
  - destruct (validateDomainName_by_hostname (url_resolveAbsolute url) url Hsame)
      as [r1 [r2 [E1 [E2 Hfields]]]].
    exists r1, r2. now repeat split.
Qed.

Lemma bare_candidate_like_http_form_witness :
  exists r1 r2,
    @ValidateDomain Sample.libs "example.com/index.html" = Ret r1 /\
    @ValidateDomain Sample.libs ("http://" ++ "example.com/index.html") = Ret r2 /\
    Valid r1 = Valid r2 /\ Reason r1 = Reason r2 /\
    Type_ r1 = Type_ r2 /\ TLD r1 = TLD r2.
Proof.
  apply (@bare_candidate_like_http_form Sample.libs "example.com/index.html"
           (Sample.http_url "example.com" "/index.html"));
    [reflexivity | reflexivity | discriminate | discriminate | reflexivity].
Defined.

(** X8. The verdict depends on the hostname only: two candidates whose
    parsed URLs have the same hostname get the same verdict, reason, type
    and TLD, whatever their schemes, ports and paths are. *)
Theorem verdict_depends_on_hostname {L : GoLibs} (raw1 raw2 : string) (u1 u2 : url_URL) :
  parseCandidate raw1 = Ret (inl u1) ->
  parseCandidate raw2 = Ret (inl u2) ->
  url_Hostname u1 = url_Hostname u2 ->
  exists r1 r2,
    ValidateDomain raw1 = Ret r1 /\ ValidateDomain raw2 = Ret r2 /\
    Valid r1 = Valid r2 /\ Reason r1 = Reason r2 /\
    Type_ r1 = Type_ r2 /\ TLD r1 = TLD r2.
Proof.
  intros H1 H2 Hsame. unfold ValidateDomain. rewrite H1, H2. cbn [bind]. rewrite Hsame.
  destruct (net_ParseIP (url_Hostname u2)) as [ip|].
  - do 2 eexists. repeat split; reflexivity.
  - destruct (validateDomainName_by_hostname u1 u2 Hsame) as [r1 [r2 [E1 [E2 Hfields]]]].
    exists r1, r2. now repeat split.
Qed.

Lemma verdict_depends_on_hostname_witness :
  exists r1 r2,
    @ValidateDomain Sample.libs "foo.dyndns.org" = Ret r1 /\
    @ValidateDomain Sample.libs "https://foo.dyndns.org:8443/status" = Ret r2 /\
    Valid r1 = Valid r2 /\ Reason r1 = Reason r2 /\
    Type_ r1 = Type_ r2 /\ TLD r1 = TLD r2.
Proof.
  apply (@verdict_depends_on_hostname Sample.libs
           "foo.dyndns.org" "https://foo.dyndns.org:8443/status"
           (Sample.http_url "foo.dyndns.org" "")
           {| Sample.Scheme := "https"; Sample.Opaque := "";
              Sample.Host := "foo.dyndns.org:8443"; Sample.Path := "/status" |});
    reflexivity.
Defined.

(** X9. Taking the last element of the parts of a suffix never goes out of
    range: it yields the rightmost label, which has no dot, and a suffix
    with a dot ends with a dot and that label. *)
Theorem probe_label_is_last_label (eTLD : string) :
  index_slice (Split eTLD ".") (Z.of_nat (List.length (Split eTLD ".")) - 1)
  = Ret (rightmost_label eTLD) /\
  Contains (rightmost_label eTLD) "." = false /\
  (Contains eTLD "." = true ->
   exists before, eTLD = before ++ "." ++ rightmost_label eTLD) /\
  (Contains eTLD "." = false -> rightmost_label eTLD = eTLD).
Proof.
  pose proof (Split_not_nil eTLD ".") as Hne.
  pose proof (Split_fields eTLD ".") as Hfields.
  pose proof (Split_concat eTLD ".") as Hcat.
  unfold rightmost_label.
  split; [now apply index_slice_last|]. split; [|split].
  - rewrite Forall_forall in Hfields. apply Hfields.
    destruct (Split eTLD ".") as [|f fs] eqn:Hs; [congruence|].
    destruct (exists_last (l := f :: fs)) as [init [l E]]; [discriminate|].
    rewrite E, last_last. apply in_or_app. right. now left.
  - intros Hdot.
    destruct (Split eTLD ".") as [|f [|g fs]] eqn:Hs; [congruence| |].
    + simpl in Hcat. subst f. inversion Hfields as [|x l Hf _]; subst.
      rewrite Hf in Hdot. discriminate.
    + rewrite <- Hcat. apply concat_last. simpl. lia.
  - intros Hdot.
    destruct (Split eTLD ".") as [|f [|g fs]] eqn:Hs; [congruence| |].
    + simpl in *. exact Hcat.
    + destruct (@concat_last "." (f :: g :: fs) "") as [before E]; [simpl; lia|].
      rewrite Hcat in E. rewrite E in Hdot. rewrite Contains_append in Hdot.
      simpl in Hdot. rewrite orb_true_r in Hdot. discriminate.
Qed.

(** X10. [String] gives the four constants four different names, and gives
    Unknown exactly to the values that are none of the constants. *)
Theorem URLType_String_names :
  (forall t, String_of_value (URLType_value t) = URLType_String t) /\
  (forall t1 t2, URLType_String t1 = URLType_String t2 -> t1 = t2) /\
  (forall v, String_of_value v = "Unknown" <-> (v < 0 \/ 3 < v)%Z).
Proof.
  split; [intros []; reflexivity|]. split.
  - intros [] []; simpl; intros E; try reflexivity; discriminate.
  - intros v. unfold String_of_value.
    destruct (Z.eqb_spec v 0); [split; [discriminate | lia]|].
    destruct (Z.eqb_spec v 1); [split; [discriminate | lia]|].
    destruct (Z.eqb_spec v 2); [split; [discriminate | lia]|].
    destruct (Z.eqb_spec v 3); [split; [discriminate | lia]|].
    split; [lia | reflexivity].
Qed.

(** * Further properties of the matcher *)

Lemma all_bytes_append (p : ascii -> bool) (a b : string) :
  all_bytes p (a ++ b) = all_bytes p a && all_bytes p b.
Proof.
  induction a as [|c a IH]; simpl; [reflexivity|]. now rewrite IH, andb_assoc.
Qed.

Lemma ascii_space_cases (c : ascii) :
  ascii_space c = true -> In c white_bytes.
Proof.
  unfold ascii_space, white_bytes. simpl. intros H.
  repeat (apply orb_true_iff in H; destruct H as [H|H];
          [apply Ascii.eqb_eq in H; subst; tauto|]).
  discriminate.
Qed.

Lemma space_free_sound (r : regex) (m : string) :
  space_free r = true -> Matches r m -> no_space m = true.
Proof.
  intros Hfree Hm. unfold no_space.
  induction Hm as [|negated ranges c Hc|r1 r2 m1 m2 _ IH1 _ IH2|r1 r2 m _ IH
                   |r1 r2 m _ IH| |r m1 m2 _ IH1 _ IH2]; cbn [space_free] in Hfree.
  - reflexivity.
  - simpl. rewrite andb_true_r. destruct (ascii_space c) eqn:Hs; [|reflexivity].
    apply ascii_space_cases in Hs. rewrite forallb_forall in Hfree.
    apply Hfree in Hs. rewrite Hc in Hs. discriminate.
  - apply andb_true_iff in Hfree. destruct Hfree as [F1 F2].
    rewrite all_bytes_append, IH1, IH2; auto.
  - apply andb_true_iff in Hfree. destruct Hfree as [F1 F2]. auto.
  - apply andb_true_iff in Hfree. destruct Hfree as [F1 F2]. auto.
  - reflexivity.
  - rewrite all_bytes_append, IH1, IH2; auto.
Qed.

Lemma TrimRight_head (c : ascii) (s cutset : string) :
  mem_ascii c cutset = false ->
  exists kept, TrimRight (String c s) cutset = String c kept.
Proof.
  intros Hc. simpl. destruct (TrimRight s cutset) as [|b kept].
  - rewrite Hc. now exists "".
  - now exists (String b kept).
Qed.

Lemma alnum_not_trimmed (c : ascii) :
  ascii_alnum c = true \/ c = "["%char -> mem_ascii c ".,)" = false.
Proof.
  intros [Hc| ->]; [|reflexivity]. revert Hc.
  destruct c as [[] [] [] [] [] [] [] []]; vm_compute; intros E;
    reflexivity || discriminate.
Qed.

Lemma match_first_byte (m : string) :
  Matches urlRegex m ->
  exists b rest, m = String b rest /\ (ascii_alnum b = true \/ b = "["%char).
Proof.
  intros Hm. apply Matches_urlRegex in Hm.
  destruct Hm as [[rest [->| ->]]|[host [port [path [-> [[Hb|Hd] _]]]]]].
  - eexists _, _. split; [reflexivity|]. now left.
  - eexists _, _. split; [reflexivity|]. now left.
  - destruct Hb as [inner [_ [_ ->]]]. eexists _, _. split; [reflexivity|]. now right.
  - destruct Hd as [labels [Hlen [Hall ->]]].
    destruct labels as [|l0 labels]; [simpl in Hlen; lia|].
    rewrite concat_dot_each. simpl in Hall. apply andb_true_iff in Hall.
    destruct Hall as [H0 _]. destruct l0 as [|c l0]; [discriminate|].
    simpl in H0. apply andb_true_iff in H0. destruct H0 as [Hc _].
    eexists _, _. split; [reflexivity|]. now left.
Qed.

Lemma candidate_is_token (text c : string) :
  In c (candidates text) ->
  (exists b rest, c = String b rest /\ (ascii_alnum b = true \/ b = "["%char)) /\
  no_space c = true.
Proof.
  unfold candidates, FindAllString. cbn [Z.ltb Z.compare]. intros Hin.
  apply in_map_iff in Hin. destruct Hin as [m [<- Hin]].
  apply allMatches_Matches in Hin. split.
  - destruct (@match_first_byte m Hin) as [b [rest [-> Hb]]].
    destruct (@TrimRight_head b rest ".,)" (@alnum_not_trimmed b Hb)) as [kept E].
    rewrite E. now exists b, kept.
  - assert (no_space m = true) as Hm by (apply (@space_free_sound urlRegex); auto).
    destruct (TrimRight_prefix m ".,)") as [dropped [E _]].
    unfold no_space in *. rewrite E, all_bytes_append in Hm.
    now apply andb_true_iff in Hm.
Qed.

(** X11. Every string [ExtractAll] returns is a token: it is not empty, it
    starts with a letter or digit of ASCII or with an opening bracket, and
    it contains no white space. *)
Theorem extracted_strings_are_tokens {L : GoLibs} (H : keeps_http_scheme)
    (text : string) :
  exists found,
    ExtractAll text = Ret found /\
    forall s, In s found ->
      (exists b rest, s = String b rest /\ (ascii_alnum b = true \/ b = "["%char)) /\
      no_space s = true.
Proof.
  exists (filter is_valid (candidates text)). split; [now apply ExtractAll_filter|].
  intros s Hin. apply filter_In in Hin. destruct Hin as [Hin _].
  now apply candidate_is_token with text.
Qed.

Lemma extracted_strings_are_tokens_witness :
  exists found,
    @ExtractAll Sample.libs "see (http://example.com/a b), or [bad] example.org." = Ret found /\
    forall s, In s found ->
      (exists b rest, s = String b rest /\ (ascii_alnum b = true \/ b = "["%char)) /\
      no_space s = true.
Proof.
  exact (@extracted_strings_are_tokens Sample.libs Sample_keeps_http_scheme
           "see (http://example.com/a b), or [bad] example.org.").
Defined.

Lemma Contains_substring (s text : string) (c : ascii) :
  substring_of s text -> Contains s c = true -> Contains text c = true.
Proof.
  intros [before [after ->]] Hs. rewrite !Contains_append, Hs.
  now rewrite orb_true_r.
Qed.

Lemma no_marks_no_matches (text : string) :
  Contains text "." = false -> Contains text "[" = false -> Contains text ":" = false ->
  FindAllString urlRegex text (-1) = [].
Proof.
  intros Hdot Hbracket Hcolon. unfold FindAllString. cbn [Z.ltb Z.compare].
  pose proof (allMatches_in_order urlRegex text 0 false) as Hord. cbn [skip_bytes] in Hord.
  destruct (allMatches urlRegex 0 false text) as [|m ms] eqn:Hall; [reflexivity|].
  exfalso.
  assert (In m (allMatches urlRegex 0 false text)) as Hin by (rewrite Hall; now left).
  assert (substring_of m text) as Hsub.
  { apply (@occurs_substring (m :: ms) text m); [exact Hord | now left]. }
  apply allMatches_Matches in Hin. apply Matches_urlRegex in Hin.
  destruct Hin as [[rest [->| ->]]|Hbare].
  - rewrite (@Contains_substring _ text ":" Hsub) in Hcolon; [discriminate | reflexivity].
  - rewrite (@Contains_substring _ text ":" Hsub) in Hcolon; [discriminate | reflexivity].
  - destruct (Contains m ".") eqn:Hm.
    + rewrite (@Contains_substring m text "." Hsub Hm) in Hdot. discriminate.
    + destruct (@bare_host_no_dot m Hbare Hm) as [rest ->].
      rewrite (@Contains_substring _ text "[" Hsub) in Hbracket; [discriminate | reflexivity].
Qed.

(** X12. A text with no dot, no opening bracket and no colon has no
    candidate, and [ExtractAll] returns the empty list for it without a
    call to the libraries. *)
Theorem plain_text_yields_nothing {L : GoLibs} (text : string) :
  Contains text "." = false -> Contains text "[" = false -> Contains text ":" = false ->
  FindAllString urlRegex text (-1) = [] /\ ExtractAll text = Ret [].
Proof.
  intros Hdot Hbracket Hcolon.
  pose proof (no_marks_no_matches text Hdot Hbracket Hcolon) as Hnone.
  split; [exact Hnone|]. unfold ExtractAll. now rewrite Hnone.
Qed.

Lemma plain_text_yields_nothing_witness :
  FindAllString urlRegex "just some words, and (more) words" (-1) = [] /\
  @ExtractAll Sample.libs "just some words, and (more) words" = Ret [].
Proof.
  apply (@plain_text_yields_nothing Sample.libs "just some words, and (more) words");
    reflexivity.
Defined.

(** ** What the matcher finds first *)





















Lemma then_ways_nil (next : string -> ways) : then_ways [] next = [].
Proof. reflexivity. Qed.

















